(** * scada_modbus_demo: polling client and register simulator

    A shallow embedding of [client_poll.py] (register decoding, the
    hysteresis alarm [AlarmState], the poll/backoff loop of [main]) and of
    [server_sim.py] (the register block and the [updater] tick), with the
    properties the specification states about them and further properties
    read off the code: the alarm's event discipline and delays, the loop's
    messages, backoff and sleep, the ranges the simulator keeps, and the
    client polling the simulator.

    Python [int] is [Z].  Python [float] is a rational [Q]; every float
    operation rounds its exact result with [fl], to the nearest number with a
    53-bit significand (ties to even), so [x * y] on floats is [fl (x * y)]
    and a literal such as [0.3] is [fl (3 # 10)]; literals that are small
    integers ([10.0], [30.0]) are written as they are.  The exponent range
    is not bounded: overflow to infinity and subnormal numbers are not
    modelled (no value of the program comes near either).  Clock readings
    and the results of [random.uniform] are inputs and may be any
    rational. *)

From Stdlib Require Import String ZArith QArith Qround List Bool Lia.
From Stdlib Require Qcanon.
Import ListNotations.

Local Open Scope Z_scope.

(** ** Exceptions *)

Module Py.

(** The exceptions the two programs can meet: list indexing out of range and
    the transport errors raised in [main]. *)
Inductive exn : Type :=
| IndexError
| ModbusIOException (msg : string).

Inductive result (A : Type) : Type :=
| Ok (a : A)
| Raise (e : exn).

Arguments Ok {A} a.
Arguments Raise {A} e.

Definition bind {A B : Type} (m : result A) (k : A -> result B) : result B :=
  match m with
  | Ok a => k a
  | Raise e => Raise e
  end.

Definition is_ok {A : Type} (m : result A) : bool :=
  match m with Ok _ => true | Raise _ => false end.

(** [xs[i]] for a non-negative constant index [i]. *)
Definition getitem {A : Type} (xs : list A) (i : nat) : result A :=
  match nth_error xs i with
  | Some x => Ok x
  | None => Raise IndexError
  end.

(** The two-argument builtins [min(a, b)] and [max(a, b)]: the first argument
    is returned unless the second is strictly smaller (larger). *)
Definition min (a b : Z) : Z := if b <? a then b else a.
Definition max (a b : Z) : Z := if a <? b then b else a.

End Py.

Notation "x <- m ;; k" := (Py.bind m (fun x => k))
  (at level 61, m at next level, right associativity).

(** ** Floating point *)

Module Float.

(** Nearest integer to [n / d] for [0 < d], ties to the even one. *)
Definition rnd_half_even (n d : Z) : Z :=
  let q := n / d in
  let r := n mod d in
  match 2 * r ?= d with
  | Lt => q
  | Gt => q + 1
  | Eq => if Z.even q then q else q + 1
  end.

(** [2 ^ e <= a / b], for any sign of [e]. *)
Definition ge_pow2 (a b : positive) (e : Z) : bool :=
  if 0 <=? e then 2 ^ e * Zpos b <=? Zpos a
  else Zpos b <=? Zpos a * 2 ^ (- e).

(** The binary exponent of [a / b]: the [e] with [2 ^ e <= a / b < 2 ^ (e + 1)]. *)
Definition exponent (a b : positive) : Z :=
  let l := Z.log2 (Zpos a) - Z.log2 (Zpos b) in
  if ge_pow2 a b l then l else l - 1.

(** Rounding of the positive rational [a / b] to 53 significant bits. *)
Definition round53 (a b : positive) : Q :=
  let k := 52 - exponent a b in
  if 0 <=? k
  then Qred (rnd_half_even (Zpos a * 2 ^ k) (Zpos b) # Z.to_pos (2 ^ k))
  else inject_Z (rnd_half_even (Zpos a) (Zpos b * 2 ^ (- k)) * 2 ^ (- k)).

Definition fl (x : Q) : Q :=
  match Qnum x with
  | Z0 => 0%Q
  | Zpos a => round53 a (Qden x)
  | Zneg a => Qopp (round53 a (Qden x))
  end.

Definition of_int (z : Z) : Q := fl (inject_Z z).

Definition add (x y : Q) : Q := fl (x + y).
Definition sub (x y : Q) : Q := fl (x - y).
Definition mul (x y : Q) : Q := fl (x * y).
(** True division; every divisor in the two programs is at least 1. *)
Definition div (x y : Q) : Q := fl (x / y).

Definition ltb (x y : Q) : bool := negb (Qle_bool y x).
Definition leb (x y : Q) : bool := Qle_bool x y.
Definition eqb (x y : Q) : bool := Qeq_bool x y.

(** [min(a, b)] and [max(a, b)] on numbers. *)
Definition min (a b : Q) : Q := if ltb b a then b else a.
Definition max (a b : Q) : Q := if ltb a b then b else a.

(** [int(x)]: truncation toward zero. *)
Definition to_int (x : Q) : Z := Z.quot (Qnum x) (Zpos (Qden x)).

(** [x // y] on floats for [0 < y], as a float. *)
Definition floordiv (x y : Q) : Q := fl (inject_Z (Qfloor (x / y))).

(** [x % 2] for a float [x] holding an integer. *)
Definition mod2 (x : Q) : Q := inject_Z (Qfloor x mod 2).

End Float.

(** ** client_poll.py *)

Module Client.

Import Py.

Definition READ_TIMEOUT : Q := 1.
Definition BASE_PERIOD : Q := 1.
Definition MAX_BACKOFF : Q := 30.

(** Register addresses. *)
Definition ADDR_DEVICE_ID : nat := 0.
Definition ADDR_STATUS : nat := 1.
Definition ADDR_POWER_W : nat := 2.
Definition ADDR_VOLT_x10 : nat := 3.
Definition ADDR_CURR_x100 : nat := 4.
Definition ADDR_TEMP_x10 : nat := 5.
Definition ADDR_SOC_x10 : nat := 6.

(** *** AlarmState *)

Record AlarmState : Type := mkAlarm {
  hi : Q;
  lo : Q;
  raise_after : Q;
  clear_after : Q;
  high_since : option Q;
  low_since : option Q;
  active : bool
}.

Inductive event : Type := Raised | Cleared.

(** [AlarmState.__init__]: the four parameters are stored as given. *)
Definition AlarmState_init (hi lo raise_after clear_after : Q) : AlarmState :=
  {| hi := hi; lo := lo;
     raise_after := raise_after; clear_after := clear_after;
     high_since := None; low_since := None; active := false |}.

(** The constructor call [AlarmState(hi, lo, raise_after, clear_after)], which
    like any call either returns the object or raises. *)
Definition AlarmState_new (hi lo raise_after clear_after : Q)
  : result AlarmState :=
  Ok (AlarmState_init hi lo raise_after clear_after).

(** The defaults of [__init__], used by [main]. *)
Definition default_alarm : AlarmState := AlarmState_init 60 58 5 3.

Definition set_high_since (s : AlarmState) (v : option Q) : AlarmState :=
  {| hi := hi s; lo := lo s;
     raise_after := raise_after s; clear_after := clear_after s;
     high_since := v; low_since := low_since s; active := active s |}.

Definition set_low_since (s : AlarmState) (v : option Q) : AlarmState :=
  {| hi := hi s; lo := lo s;
     raise_after := raise_after s; clear_after := clear_after s;
     high_since := high_since s; low_since := v; active := active s |}.

Definition set_active (s : AlarmState) (v : bool) : AlarmState :=
  {| hi := hi s; lo := lo s;
     raise_after := raise_after s; clear_after := clear_after s;
     high_since := high_since s; low_since := low_since s; active := v |}.

(** [x if x is not None else ts], after [if self.x is None: self.x = ts]. *)
Definition since_or (x : option Q) (ts : Q) : Q :=
  match x with
  | None => ts
  | Some t => t
  end.

(** [AlarmState.update(temp_c, ts)]: the returned event and the object after
    the call. *)
Definition update (s : AlarmState) (temp_c ts : Q)
  : option event * AlarmState :=
  if active s then
    if Float.ltb temp_c (lo s) then
      let s1 := set_low_since s (Some (since_or (low_since s) ts)) in
      if Float.leb (clear_after s1)
                   (Float.sub ts (since_or (low_since s) ts))
      then (Some Cleared, set_low_since (set_active s1 false) None)
      else (None, s1)
    else (None, set_low_since s None)
  else
    if Float.ltb (hi s) temp_c then
      let s1 := set_high_since s (Some (since_or (high_since s) ts)) in
      if Float.leb (raise_after s1)
                   (Float.sub ts (since_or (high_since s) ts))
      then (Some Raised, set_high_since (set_active s1 true) None)
      else (None, s1)
    else (None, set_high_since s None).

(** A stream of calls to [update], oldest first: the events returned, in
    order, and the object after the last call. *)
Fixpoint feed (s : AlarmState) (samples : list (Q * Q))
  : list (option event) * AlarmState :=
  match samples with
  | [] => ([], s)
  | (temp_c, ts) :: rest =>
      let (e, s1) := update s temp_c ts in
      let (es, s2) := feed s1 rest in
      (e :: es, s2)
  end.

(** [temp_c] held constant over the timestamps [t0, t0 + 1, ...] ([n] of
    them). *)
Definition constant (temp_c : Q) (t0 : Z) (n : nat) : list (Q * Q) :=
  map (fun i => (temp_c, inject_Z (t0 + Z.of_nat i))) (seq 0 n).

(** *** Decoding of the register block (in [main]) *)

Record Telemetry : Type := mkTelemetry {
  device_id : Z;
  power_w : Z;
  voltage_v : Q;
  current_a : Q;
  temp_c : Q;
  soc_pct : Q
}.

(** [regs[a] / 10.0] and the like. *)
Definition scaled (raw : Z) (scale : Z) : Q :=
  Float.div (Float.of_int raw) (inject_Z scale).

(** The indexing and scaling of [rr.registers] in the [try] block. *)
Definition decode (regs : list Z) : result Telemetry :=
  device_id <- getitem regs ADDR_DEVICE_ID ;;
  power_w <- getitem regs ADDR_POWER_W ;;
  volt <- getitem regs ADDR_VOLT_x10 ;;
  curr <- getitem regs ADDR_CURR_x100 ;;
  temp <- getitem regs ADDR_TEMP_x10 ;;
  soc <- getitem regs ADDR_SOC_x10 ;;
  Ok {| device_id := device_id;
        power_w := power_w;
        voltage_v := scaled volt 10;
        current_a := scaled curr 100;
        temp_c := scaled temp 10;
        soc_pct := scaled soc 10 |}.

(** *** The poll loop of [main] *)

(** What the transport gives in one cycle: [mb.connect()] false, a response
    with [isError()], or a response with its [registers]. *)
Inductive response : Type :=
| ConnectFailed
| ErrorResponse (msg : string)
| Registers (regs : list Z).

(** Published payloads (the wall-clock [ts] string is left out). *)
Inductive message : Type :=
| TelemetryGood (sample : Telemetry)
| TelemetryBad (error : exn)
| AlarmRaised (device_id : Z) (threshold_hi : Q)
| AlarmCleared (device_id : Z) (threshold_lo : Q).

Record PollState : Type := mkPoll {
  alarm : AlarmState;
  backoff : Q
}.

(** Connect, read and decode: everything in the [try] block that can raise. *)
Definition acquire (r : response) : result Telemetry :=
  match r with
  | ConnectFailed => Raise (ModbusIOException "connect failed")
  | ErrorResponse msg => Raise (ModbusIOException msg)
  | Registers regs => decode regs
  end.

(** The [try] block: [now] is the clock reading passed to [alarm.update]. *)
Definition transaction (r : response) (now : Q) (a : AlarmState)
  : result (list message * AlarmState) :=
  sample <- acquire r ;;
  let (evt, a1) := update a (temp_c sample) now in
  let alarms :=
    match evt with
    | Some Raised => [AlarmRaised (device_id sample) (hi a1)]
    | Some Cleared => [AlarmCleared (device_id sample) (lo a1)]
    | None => []
    end in
  Ok (TelemetryGood sample :: alarms, a1).

(** The [except] branch's new value of [backoff]. *)
Definition next_backoff (backoff : Q) : Q :=
  if Float.eqb backoff 0 then 1
  else Float.min MAX_BACKOFF (Float.mul backoff 2).

(** One iteration of [while True]: the messages published and the loop
    variables after it. *)
Definition poll_cycle (r : response) (now : Q) (st : PollState)
  : list message * PollState :=
  match transaction r now (alarm st) with
  | Ok (msgs, a1) => (msgs, {| alarm := a1; backoff := 0 |})
  | Raise e =>
      ([TelemetryBad e],
       {| alarm := alarm st; backoff := next_backoff (backoff st) |})
  end.

(** [sleep_time] at the end of the iteration. *)
Definition sleep_time (elapsed backoff : Q) : Q :=
  Float.add (Float.max 0 (Float.sub BASE_PERIOD elapsed)) backoff.

(** The loop variables of [main] before the first iteration. *)
Definition initial : PollState := {| alarm := default_alarm; backoff := 0 |}.

(** Several iterations, oldest first; each input is the transport outcome and
    the clock reading of that cycle. *)
Fixpoint run (inputs : list (response * Q)) (st : PollState) : PollState :=
  match inputs with
  | [] => st
  | (r, now) :: rest => run rest (snd (poll_cycle r now st))
  end.

(** *** Vocabulary of the properties *)

(** The events expected on the timestamps [0 .. n - 1] when the one event
    [e] falls on timestamp [at]. *)
Definition only_at (at_ts : nat) (e : event) (n : nat) : list (option event) :=
  map (fun t => if (t =? at_ts)%nat then Some e else None) (seq 0 n).

(** The stream of the debounce-reset scenario: 61 at 0..3, 59 at 4, then 61
    at 5, 6, ... ([n] samples). *)
Definition reset_stream (n : nat) : list (Q * Q) :=
  constant 61 0 4 ++ (59%Q, 4%Q) :: constant 61 5 n.

(** At most one debounce timer is armed, the one of the current state. *)
Definition one_timer (s : AlarmState) : Prop :=
  if active s then high_since s = None else low_since s = None.

(** A cycle input whose transaction raises. *)
Definition fails (i : response * Q) : Prop := is_ok (acquire (fst i)) = false.

(** The delay after [k] failures in a row. *)
Definition delays (k : nat) : Q := nth k [0; 1; 2; 4; 8; 16]%Q 30%Q.

(** How often the event [e] was returned. *)
Definition is_event (e : event) (o : option event) : bool :=
  match e, o with
  | Raised, Some Raised => true
  | Cleared, Some Cleared => true
  | _, _ => false
  end.

Definition count_events (e : event) (es : list (option event)) : nat :=
  length (filter (is_event e) es).

(** A temperature inside the hysteresis band. *)
Definition in_band (s : AlarmState) (temp : Q) : Prop :=
  (lo s <= temp <= hi s)%Q.

Definition is_telemetry (m : message) : bool :=
  match m with
  | TelemetryGood _ | TelemetryBad _ => true
  | AlarmRaised _ _ | AlarmCleared _ _ => false
  end.

(** An unsigned 16-bit register value. *)
Definition is_register (r : Z) : Prop := 0 <= r <= 65535.

(** The registers [decode] reads. *)
Definition decoded_addresses : list nat :=
  [ADDR_DEVICE_ID; ADDR_POWER_W; ADDR_VOLT_x10; ADDR_CURR_x100;
   ADDR_TEMP_x10; ADDR_SOC_x10].

Definition b2n (b : bool) : nat := if b then 1%nat else 0%nat.

(** The alarm with the timer of its current state unset. *)
Definition timer_dropped (s : AlarmState) : AlarmState :=
  if active s then set_low_since s None else set_high_since s None.

End Client.

(** ** server_sim.py *)

Module Sim.

Import Py.

(** Register map length. *)
Definition HR_LEN : nat := 16.

(** The [values] of a [ModbusSequentialDataBlock] at address 0. *)
Definition block : Type := list Z.

(** [values[address : address + count]]. *)
Definition getValues (b : block) (address count : nat) : list Z :=
  firstn count (skipn address b).

(** [values[address : address + len(vs)] = vs]: a slice that starts past the
    end appends. *)
Definition setValues (b : block) (address : nat) (vs : list Z) : block :=
  firstn address b ++ vs ++ skipn (address + length vs) b.

(** Code that reads and writes the shared block and may raise in the middle:
    the writes done before the exception stay. *)
Definition M (A : Type) : Type := block -> result A * block.

Definition ret {A : Type} (a : A) : M A := fun b => (Ok a, b).

Definition mbind {A B : Type} (m : M A) (k : A -> M B) : M B :=
  fun b =>
    match m b with
    | (Ok a, b1) => k a b1
    | (Raise e, b1) => (Raise e, b1)
    end.

Notation "x <~ m ;; k" := (mbind m (fun x => k))
  (at level 61, m at next level, right associativity).
Notation "m ;;; k" := (mbind m (fun _ => k))
  (at level 61, right associativity).

(** [UpdatingDataBlock.set_reg], [get_reg] and [get_regs]; the lock makes
    each of them one step. *)
Definition set_reg (addr : nat) (value : Z) : M unit :=
  fun b => (Ok tt, setValues b addr [value]).

Definition get_reg (addr : nat) : M Z :=
  fun b => (getitem (getValues b addr 1) 0, b).

Definition get_regs (addr count : nat) : M (list Z) :=
  fun b => (Ok (getValues b addr count), b).

(** The holding registers of [make_context]. *)
Definition initial : block :=
  setValues (setValues (setValues (setValues (setValues (setValues
    (setValues (setValues (repeat 0 HR_LEN)
      0 [1001]) 1 [1]) 2 [1200]) 3 [2300]) 4 [500]) 5 [550]) 6 [700])
      7 [1200].

(** The random numbers one tick may draw: [randint(-5, 5)],
    [randint(-15, 15)], [uniform(-0.5, 0.5)] for the temperature target and
    [uniform(-0.2, 0.2)]. *)
Record Draws : Type := mkDraws {
  jitter_pw : Z;
  jitter_v : Z;
  jitter_temp : Q;
  jitter_soc : Q
}.

(** The ranges the random module keeps its results in; the ends of
    [uniform(a, b)] are the floats [a] and [b] themselves. *)
Definition in_range (d : Draws) : Prop :=
  -5 <= jitter_pw d <= 5 /\ -15 <= jitter_v d <= 15 /\
  (-(1 # 2) <= jitter_temp d <= 1 # 2)%Q /\
  (- Float.fl (2 # 10) <= jitter_soc d <= Float.fl (2 # 10))%Q.

(** The new [pw] from [sp], [pw] and the jitter. *)
Definition power_step (sp pw jitter : Z) : Z :=
  let delta := max (-50) (min 50 (sp - pw)) in
  let pw1 :=
    if 10 <? Z.abs delta
    then pw + Float.to_int (Float.mul (Float.of_int delta) (Float.fl (3 # 10)))
    else pw + jitter in
  max 0 (min 5000 pw1).

(** [ia] from the new [pw] and [v]. *)
Definition current_step (pw v : Z) : Z :=
  let current_a :=
    Float.div (Float.of_int pw) (Float.max 1 (Float.div (inject_Z v) 10)) in
  Float.to_int (Float.max 0 (Float.min 2000 (Float.mul current_a 100))).

(** The new temperature register from the tick time [t], the register and the
    jitter. *)
Definition temp_step (t : Q) (reg : Z) (jitter : Q) : Z :=
  let cycle := Float.to_int (Float.mod2 (Float.floordiv t 10)) in
  let temp_target :=
    if cycle =? 0 then Float.add 65 jitter else Float.add 40 jitter in
  let temp := Float.div (Float.of_int reg) 10 in
  let temp := Float.add (Float.mul temp (Float.fl (8 # 10)))
                        (Float.mul temp_target (Float.fl (2 # 10))) in
  Float.to_int (Float.mul temp 10).

(** The new state-of-charge register. *)
Definition soc_step (reg : Z) (jitter : Q) : Z :=
  let soc := Float.div (Float.of_int reg) 10 in
  let soc := Float.add soc jitter in
  let soc := Float.min 100 (Float.max 0 soc) in
  Float.to_int (Float.mul soc 10).

(** The [try] block of [updater], at tick time [t]. *)
Definition tick (d : Draws) (t : Q) : M unit :=
  sp <~ get_reg 7 ;;
  pw <~ get_reg 2 ;;
  let pw := power_step sp pw (jitter_pw d) in
  set_reg 2 pw ;;;
  let v := 2300 + jitter_v d in
  set_reg 3 v ;;;
  set_reg 4 (current_step pw v) ;;;
  temp <~ get_reg 5 ;;
  set_reg 5 (temp_step t temp (jitter_temp d)) ;;;
  soc <~ get_reg 6 ;;
  set_reg 6 (soc_step soc (jitter_soc d)) ;;;
  let status := 1 in
  set_reg 1 status.

Definition interval : Q := 1.

(** One iteration of [while True] in [updater]: [t] advances only when the
    block ran to its end. *)
Definition updater_step (d : Draws) (st : block * Q) : block * Q :=
  let (b, t) := st in
  match tick d t b with
  | (Ok _, b1) => (b1, Float.add t interval)
  | (Raise _, b1) => (b1, t)
  end.

(** The updater thread after the iterations that drew [ds], oldest first. *)
Fixpoint updater (ds : list Draws) (st : block * Q) : block * Q :=
  match ds with
  | [] => st
  | d :: rest => updater rest (updater_step d st)
  end.

(** The updater thread with a client that may write the setpoint register
    (address 7) before an iteration: each step is the value written, if
    any, and the draws of the iteration. *)
Fixpoint updater_with_writes
  (steps : list (option Z * Draws)) (st : block * Q) : block * Q :=
  match steps with
  | [] => st
  | (w, d) :: rest =>
      let (b, t) := st in
      let b1 := match w with
                | Some v => snd (set_reg 7 v b)
                | None => b
                end in
      updater_with_writes rest (updater_step d (b1, t))
  end.

(** A register that is there. *)
Definition reg (b : block) (addr : nat) : Z := nth addr b 0.

(** The bounds of the simulated quantities, on the raw registers. *)
Definition clamped (b : block) : Prop :=
  0 <= reg b 2 <= 5000 /\ 0 <= reg b 6 <= 1000 /\ 0 <= reg b 4.

(** The power step as the specification words it: 30% of the gap when the
    gap exceeds 10 W, the jitter otherwise, clamped to [0, 5000]. *)
Definition spec_power_step (sp pw jitter : Z) : Z :=
  let gap := sp - pw in
  Z.max 0 (Z.min 5000
    (if 10 <? Z.abs gap then pw + Z.quot (3 * gap) 10 else pw + jitter)).

(** What the client's [read_holding_registers(0, 10)] is answered with when
    the transport works: the first ten registers of the block. *)
Definition served (b : block) : Client.response :=
  Client.Registers (getValues b 0 10).

(** The distance of the power from the setpoint. *)
Definition gap (b : block) : Z := Z.abs (reg b 7 - reg b 2).

(** What the registers of the simulator are kept to. *)
Definition in_ranges (b : block) : Prop :=
  reg b 0 = 1001 /\ 0 <= reg b 2 <= 5000 /\ 2285 <= reg b 3 <= 2315 /\
  0 <= reg b 4 <= 2000 /\ 390 <= reg b 5 <= 660 /\ 0 <= reg b 6 <= 1000.

End Sim.

(** * Checks of the model on concrete inputs *)

Example fl_tenth :
  Float.fl (1 # 10) = (3602879701896397 # 36028797018963968)%Q.
Proof. vm_compute. reflexivity. Qed.

Example fl_three_tenths :
  Float.fl (3 # 10) = (5404319552844595 # 18014398509481984)%Q.
Proof. vm_compute. reflexivity. Qed.

Example fl_small_ints :
  map Float.of_int [0; 1; 2; 5; 30; 60; 1000; -7]
  = map inject_Z [0; 1; 2; 5; 30; 60; 1000; -7].
Proof. vm_compute. reflexivity. Qed.

Example fl_big : Float.of_int (2 ^ 53 + 1) = inject_Z (2 ^ 53).
Proof. vm_compute. reflexivity. Qed.

Example fl_big3 : Float.of_int (2 ^ 53 + 3) = inject_Z (2 ^ 53 + 4).
Proof. vm_compute. reflexivity. Qed.

Example int_of_products :
  map (fun d => Float.to_int (Float.mul (inject_Z d) (Float.fl (3 # 10))))
      [11; 20; 30; 40; 50; -50; -20; -11; 19]
  = [3; 6; 9; 12; 15; -15; -6; -3; 5].
Proof. vm_compute. reflexivity. Qed.

Example codec_round_trip :
  Client.decode [1001; 1; 1200; 2300; 500; 550; 700; 1200; 0; 0]
  = Py.Ok (Client.mkTelemetry 1001 1200 230 5 55 70).
Proof. vm_compute. reflexivity. Qed.

Example raise_events :
  fst (Client.feed Client.default_alarm (Client.constant 61 0 8))
  = [None; None; None; None; None; Some Client.Raised; None; None].
Proof. vm_compute. reflexivity. Qed.

Example initial_block :
  Sim.initial = [1001; 1; 1200; 2300; 500; 550; 700; 1200; 0; 0; 0; 0; 0; 0; 0; 0].
Proof. reflexivity. Qed.

Example first_tick :
  Sim.updater_step (Sim.mkDraws 3 (-4) 0 0) (Sim.initial, 0%Q)
  = ([1001; 1; 1203; 2296; 523; 570; 700; 1200; 0; 0; 0; 0; 0; 0; 0; 0], 1%Q).
Proof. vm_compute. reflexivity. Qed.

(** * Properties of the client *)

Module ClientFacts.

Import Py Client.

(** ** Streams of samples *)

Lemma feed_app (xs ys : list (Q * Q)) (s : AlarmState) :
  feed s (xs ++ ys)
  = (fst (feed s xs) ++ fst (feed (snd (feed s xs)) ys),
     snd (feed (snd (feed s xs)) ys)).
Proof.
  revert s. induction xs as [| [temp ts] xs IH]; intros s; simpl.
  - now destruct (feed s ys).
  - destruct (update s temp ts) as [e s1]. rewrite IH.
    destruct (feed s1 xs) as [es s2]. reflexivity.
Qed.

Lemma map_seq_from {A : Type} (f : nat -> A) (m n : nat) :
  map f (seq n m) = map (fun i => f (n + i)%nat) (seq 0 m).
Proof.
  revert n f. induction m as [| m IH]; intros n f; simpl; [reflexivity |].
  rewrite Nat.add_0_r. f_equal.
  rewrite (IH 1%nat), (IH (S n)). apply map_ext. intros i.
  f_equal. lia.
Qed.

Lemma constant_app (temp : Q) (t0 : Z) (n m : nat) :
  constant temp t0 (n + m)
  = constant temp t0 n ++ constant temp (t0 + Z.of_nat n) m.
Proof.
  unfold constant. rewrite seq_app, map_app. f_equal.
  simpl. rewrite map_seq_from. apply map_ext. intros i.
  do 2 f_equal. lia.
Qed.

Lemma constant_temps (temp : Q) (t0 : Z) (n : nat) :
  Forall (fun p => fst p = temp) (constant temp t0 n).
Proof.
  apply Forall_forall. intros p Hp. unfold constant in Hp.
  apply in_map_iff in Hp. destruct Hp as [i [<- _]]. reflexivity.
Qed.

Lemma set_low_since_same (s : AlarmState) :
  low_since s = None -> set_low_since s None = s.
Proof. destruct s; simpl; intros ->; reflexivity. Qed.


(** While active, samples that are not below [lo] return no event and leave
    the object as it is. *)
Lemma feed_active_quiet (samples : list (Q * Q)) (s : AlarmState) :
  active s = true -> low_since s = None ->
  Forall (fun p => Float.ltb (fst p) (lo s) = false) samples ->
  feed s samples = (repeat None (length samples), s).
Proof.
  intros Ha Hl. induction 1 as [| [temp ts] rest Hx _ IH]; simpl.
  - reflexivity.
  - unfold update. simpl in Hx. rewrite Ha, Hx.
    rewrite (set_low_since_same s Hl), IH. reflexivity.
Qed.

(** An active alarm never returns [Raised], an inactive one never
    [Cleared]. *)
Lemma update_event (s : AlarmState) (temp ts : Q) :
  fst (update s temp ts)
  = if active s
    then match fst (update s temp ts) with
         | Some Cleared => Some Cleared | _ => None end
    else match fst (update s temp ts) with
         | Some Raised => Some Raised | _ => None end.
Proof.
  unfold update. destruct (active s).
  - destruct (Float.ltb temp (lo s)); [| reflexivity].
    now destruct (Float.leb _ _).
  - destruct (Float.ltb (hi s) temp); [| reflexivity].
    now destruct (Float.leb _ _).
Qed.

Lemma only_at_after (at_ts : nat) (e : event) (k j : nat) :
  (at_ts < j)%nat ->
  map (fun t => if (t =? at_ts)%nat then Some e else None) (seq j k)
  = repeat None k.
Proof.
  revert j. induction k as [| k IH]; intros j Hj; simpl; [reflexivity |].
  rewrite IH by lia.
  destruct (Nat.eqb_spec j at_ts); [lia | reflexivity].
Qed.

Lemma only_at_app (at_ts : nat) (e : event) (n m : nat) :
  (at_ts < n)%nat ->
  only_at at_ts e (n + m) = only_at at_ts e n ++ repeat None m.
Proof.
  intros Hlt. unfold only_at. rewrite seq_app, map_app. f_equal.
  now apply only_at_after.
Qed.

Lemma update_one_timer (s : AlarmState) (temp ts : Q) :
  one_timer s -> one_timer (snd (update s temp ts)).
Proof.
  unfold one_timer, update. destruct (active s) eqn:Ha; intros H.
  - destruct (Float.ltb temp (lo s)); simpl.
    + destruct (Float.leb _ _); simpl; [reflexivity |].
      now rewrite Ha.
    + now rewrite Ha.
  - destruct (Float.ltb (hi s) temp); simpl.
    + destruct (Float.leb _ _); simpl; [reflexivity |].
      now rewrite Ha.
    + now rewrite Ha.
Qed.

Lemma feed_one_timer (samples : list (Q * Q)) (s : AlarmState) :
  one_timer s -> one_timer (snd (feed s samples)).
Proof.
  revert s. induction samples as [| [temp ts] rest IH]; intros s H; simpl.
  - exact H.
  - pose proof (update_one_timer s temp ts H) as H1.
    destruct (update s temp ts) as [e s1]. simpl in H1.
    specialize (IH s1 H1). destruct (feed s1 rest) as [es s2]. exact IH.
Qed.

(** ** Backoff *)

Lemma poll_cycle_backoff (r : response) (now : Q) (st : PollState) :
  backoff (snd (poll_cycle r now st))
  = if is_ok (acquire r) then 0%Q else next_backoff (backoff st).
Proof.
  unfold poll_cycle, transaction.
  destruct (acquire r) as [sample | e]; simpl; [| reflexivity].
  destruct (update _ _ _) as [evt a1]. reflexivity.
Qed.

Lemma next_backoff_delays (k : nat) :
  next_backoff (delays k) = delays (S k).
Proof.
  do 6 (destruct k as [| k]; [vm_compute; reflexivity |]).
  destruct k; vm_compute; reflexivity.
Qed.

Lemma run_failures (inputs : list (response * Q)) (st : PollState) (k : nat) :
  Forall fails inputs -> backoff st = delays k ->
  backoff (run inputs st) = delays (length inputs + k).
Proof.
  intros H. revert st k.
  induction H as [| [r now] rest Hx _ IH]; intros st k Hk; simpl.
  - exact Hk.
  - rewrite (IH _ (S k)).
    + f_equal. lia.
    + rewrite poll_cycle_backoff. unfold fails in Hx. simpl in Hx.
      rewrite Hx, Hk. apply next_backoff_delays.
Qed.

(** ** Decoding *)

(** C1 (as the code has it).  Decoding indexes the registers 0 and 2 to 6 and
    checks nothing else: a sequence shorter than 7 raises [IndexError] and
    gives no sample, and every sequence of 7 or more registers decodes, to
    the sample read off its elements 0 and 2 to 6. *)
Theorem decode_length (regs : list Z) :
  decode regs
  = if (length regs <? 7)%nat then Raise IndexError
    else Ok {| device_id := nth 0 regs 0;
               power_w := nth 2 regs 0;
               voltage_v := scaled (nth 3 regs 0) 10;
               current_a := scaled (nth 4 regs 0) 100;
               temp_c := scaled (nth 5 regs 0) 10;
               soc_pct := scaled (nth 6 regs 0) 10 |}.
Proof.
  do 7 (destruct regs as [| ? regs]; [reflexivity |]).
  reflexivity.
Qed.

(** C1 fails as stated: a sequence of 7 registers, fewer than 10, decodes to
    a sample. *)
Lemma decode_seven_registers :
  (length [1001; 1; 1200; 2300; 500; 550; 700] < 10)%nat /\
  decode [1001; 1; 1200; 2300; 500; 550; 700]
  = Ok (mkTelemetry 1001 1200 230 5 55 70).
Proof. split; [simpl; lia | vm_compute; reflexivity]. Qed.

(** ** Backoff *)

(** C2.  After any number of failed cycles in a row from [backoff = 0] the
    delay is the entry of 0, 1, 2, 4, 8, 16, 30, 30, ... at that number; the
    cycle after them sets it to 0 when it succeeds and otherwise to 1 if it
    was 0, else to [min(MAX_BACKOFF, backoff * 2)], with [MAX_BACKOFF = 30]. *)
Theorem backoff_sequence
  (inputs : list (response * Q)) (a : AlarmState) (r : response) (now : Q) :
  Forall fails inputs ->
  let st := run inputs {| alarm := a; backoff := 0 |} in
  backoff st = nth (length inputs) [0; 1; 2; 4; 8; 16]%Q 30%Q /\
  backoff (snd (poll_cycle r now st))
  = (if is_ok (acquire r) then 0%Q
     else if Float.eqb (backoff st) 0 then 1%Q
          else Float.min 30 (Float.mul (backoff st) 2)).
Proof.
  intros H st. split.
  - unfold st. rewrite (run_failures inputs _ 0 H) by reflexivity.
    now rewrite Nat.add_0_r.
  - apply poll_cycle_backoff.
Qed.

Lemma backoff_sequence_witness :
  let inputs :=
    [(ConnectFailed, 0%Q); (ErrorResponse "timeout", 2%Q);
     (Registers [1001; 1; 1200], 5%Q); (ConnectFailed, 10%Q);
     (ConnectFailed, 19%Q); (ConnectFailed, 36%Q); (ConnectFailed, 67%Q)] in
  let r := Registers [1001; 1; 1200; 2300; 500; 550; 700; 1200; 0; 0] in
  Forall fails inputs /\
  backoff (run inputs initial) = 30%Q /\
  backoff (snd (poll_cycle r 98 (run inputs initial))) = 0%Q.
Proof.
  intros inputs r.
  assert (H : Forall fails inputs) by (repeat constructor).
  split; [exact H |].
  exact (backoff_sequence inputs default_alarm r 98 H).
Defined.

(** ** The alarm *)

(** C3.  With the thresholds 60/58 and the delays 5 and 3, a temperature held
    at 61 over the timestamps 0, 1, 2, ... returns no event at 0..4, [Raised]
    at 5 and nothing at any later timestamp; the alarm is active from then
    on. *)
Theorem hysteresis_raise (n : nat) :
  let s := AlarmState_init 60 58 5 3 in
  fst (feed s (constant 61 0 n)) = only_at 5 Raised n /\
  active (snd (feed s (constant 61 0 n))) = (6 <=? n)%nat.
Proof.
  intros s.
  do 6 (destruct n as [| n]; [vm_compute; split; reflexivity |]).
  change (S (S (S (S (S (S n)))))) with (6 + n)%nat.
  rewrite constant_app, feed_app, only_at_app by lia.
  set (s6 := snd (feed s (constant 61 0 6))).
  assert (Hq : feed s6 (constant 61 (0 + Z.of_nat 6) n)
               = (repeat None (length (constant 61 (0 + Z.of_nat 6) n)), s6)).
  { apply feed_active_quiet; [reflexivity | reflexivity |].
    eapply Forall_impl; [| apply constant_temps].
    intros p ->. reflexivity. }
  rewrite Hq. simpl fst. simpl snd. split.
  - f_equal. unfold constant. now rewrite length_map, length_seq.
  - reflexivity.
Qed.

(** C4.  With 61 at the timestamps 0..3, 59 at 4 and 61 again from 5 on, the
    high timer that ran since 0 is dropped at 4 and started anew at 5, and
    the only [Raised] comes at timestamp 10 (nothing at 9). *)
Theorem debounce_reset (n : nat) :
  let s := AlarmState_init 60 58 5 3 in
  high_since (snd (feed s (constant 61 0 4))) = Some 0%Q /\
  high_since (snd (feed s (constant 61 0 4 ++ [(59%Q, 4%Q)]))) = None /\
  high_since (snd (feed s (reset_stream 1))) = Some 5%Q /\
  fst (feed s (reset_stream n)) = only_at 10 Raised (5 + n).
Proof.
  intros s. do 3 (split; [vm_compute; reflexivity |]).
  do 6 (destruct n as [| n]; [vm_compute; reflexivity |]).
  change (S (S (S (S (S (S n)))))) with (6 + n)%nat.
  unfold reset_stream.
  rewrite constant_app.
  change (constant 61 0 4 ++ (59%Q, 4%Q)
            :: constant 61 5 6 ++ constant 61 (5 + Z.of_nat 6) n)
    with (reset_stream 6 ++ constant 61 (5 + Z.of_nat 6) n).
  rewrite feed_app.
  replace (5 + (6 + n))%nat with (11 + n)%nat by lia.
  rewrite only_at_app by lia.
  set (s11 := snd (feed s (reset_stream 6))).
  assert (Hq : feed s11 (constant 61 (5 + Z.of_nat 6) n)
               = (repeat None (length (constant 61 (5 + Z.of_nat 6) n)), s11)).
  { apply feed_active_quiet; [reflexivity | reflexivity |].
    eapply Forall_impl; [| apply constant_temps].
    intros p ->. reflexivity. }
  rewrite Hq. cbv beta iota delta [fst snd]. f_equal.
  unfold constant. now rewrite length_map, length_seq.
Qed.

(** C5.  After the alarm of the first scenario was raised at timestamp 5, a
    temperature of 57 at the timestamps 5, 6, 7 and 8 returns one event, the
    [Cleared] at timestamp 8, and leaves the alarm inactive. *)
Theorem hysteresis_clear :
  let raised := snd (feed (AlarmState_init 60 58 5 3) (constant 61 0 6)) in
  active raised = true /\
  fst (feed raised (constant 57 5 4)) = [None; None; None; Some Cleared] /\
  active (snd (feed raised (constant 57 5 4))) = false.
Proof. vm_compute. repeat split; reflexivity. Qed.

(** C6.  A sample equal to [hi] never starts or extends the high timer (an
    inactive alarm ends the call without one, an active one keeps what it
    had, and no [Raised] is returned), and a sample equal to [lo] never
    starts or extends the low timer, at any timestamp and in any state. *)
Theorem boundary_strict (s : AlarmState) (ts at_hi at_lo : Q) :
  (at_hi == hi s)%Q -> (at_lo == lo s)%Q ->
  (high_since (snd (update s at_hi ts))
   = (if active s then high_since s else None) /\
   fst (update s at_hi ts) <> Some Raised) /\
  (low_since (snd (update s at_lo ts))
   = (if active s then None else low_since s) /\
   fst (update s at_lo ts) <> Some Cleared).
Proof.
  intros Hhi Hlo.
  assert (Eh : Float.ltb (hi s) at_hi = false).
  { unfold Float.ltb. rewrite Hhi.
    now rewrite (proj2 (Qle_bool_iff _ _) (Qle_refl _)). }
  assert (El : Float.ltb at_lo (lo s) = false).
  { unfold Float.ltb. rewrite Hlo.
    now rewrite (proj2 (Qle_bool_iff _ _) (Qle_refl _)). }
  split.
  - split; [| rewrite update_event]; unfold update;
      destruct (active s) eqn:Ha; rewrite ?Eh.
    + destruct (Float.ltb at_hi (lo s)); [| reflexivity].
      now destruct (Float.leb _ _).
    + reflexivity.
    + destruct (Float.ltb at_hi (lo s)); [| discriminate].
      now destruct (Float.leb _ _).
    + discriminate.
  - split; [| rewrite update_event]; unfold update;
      destruct (active s) eqn:Ha; rewrite ?El.
    + reflexivity.
    + destruct (Float.ltb (hi s) at_lo); [| reflexivity].
      now destruct (Float.leb _ _).
    + discriminate.
    + destruct (Float.ltb (hi s) at_lo); [| discriminate].
      now destruct (Float.leb _ _).
Qed.

Lemma boundary_strict_witness :
  let s := set_high_since default_alarm (Some 3%Q) in
  ((600 # 10) == hi s)%Q /\ ((116 # 2) == lo s)%Q /\
  high_since (snd (update s (600 # 10) 4)) = None /\
  low_since (snd (update s (116 # 2) 4)) = None.
Proof.
  intros s.
  assert (Hhi : ((600 # 10) == hi s)%Q) by reflexivity.
  assert (Hlo : ((116 # 2) == lo s)%Q) by reflexivity.
  pose proof (boundary_strict s 4 (600 # 10) (116 # 2) Hhi Hlo)
    as [[H1 _] [H2 _]].
  repeat split; assumption.
Defined.

(** C7 (as the code has it).  Constructing the alarm never fails: any four
    parameters, whatever the order of [lo] and [hi], give an inactive alarm
    with both timers unset that stores the parameters as given. *)
Theorem construction_accepts (hi lo raise_after clear_after : Q) :
  AlarmState_new hi lo raise_after clear_after
  = Ok {| Client.hi := hi; Client.lo := lo;
          Client.raise_after := raise_after;
          Client.clear_after := clear_after;
          high_since := None; low_since := None; active := false |}.
Proof. reflexivity. Qed.

(** C7 fails as stated: with [hi = 58] and [lo = 60] the constructor returns
    an alarm, and that alarm raises and clears like any other. *)
Lemma construction_inverted_band :
  (60 >= 58)%Q /\
  exists s, AlarmState_new 58 60 5 3 = Ok s /\
    fst (feed s (constant 59 0 10))
    = [None; None; None; None; None; Some Raised;
       None; None; None; Some Cleared].
Proof.
  split; [discriminate |].
  eexists. split; [reflexivity | vm_compute; reflexivity].
Qed.

(** C10.  From a freshly constructed alarm, after any calls to [update] an
    active alarm has no high timer and an inactive one no low timer. *)
Theorem one_timer_armed
  (hi lo raise_after clear_after : Q) (samples : list (Q * Q)) :
  let s := snd (feed (AlarmState_init hi lo raise_after clear_after) samples) in
  if active s then high_since s = None else low_since s = None.
Proof. apply feed_one_timer. reflexivity. Qed.

End ClientFacts.

(** * Properties of the rounding *)

Module FloatFacts.

Import Float.

Lemma rnd_half_even_nonneg (n d : Z) :
  0 <= n -> 0 < d -> 0 <= rnd_half_even n d.
Proof.
  intros Hn Hd. unfold rnd_half_even.
  pose proof (Z.div_pos n d Hn Hd) as Hq.
  destruct (2 * (n mod d) ?= d); [destruct (Z.even (n / d)) | |]; lia.
Qed.

(** Rounding to nearest never passes an integer bound. *)
Lemma rnd_half_even_le (n d m : Z) :
  0 < d -> n <= m * d -> rnd_half_even n d <= m.
Proof.
  intros Hd Hle. unfold rnd_half_even.
  pose proof (Z.div_mod n d ltac:(lia)) as Hdm.
  pose proof (Z.mod_pos_bound n d Hd) as Hr.
  assert (Hq : n / d <= m) by nia.
  destruct (Z.eq_dec (n / d) m) as [E | NE].
  - assert (Hz : n mod d = 0) by nia.
    assert (Hc : (2 * (n mod d) ?= d) = Lt)
      by (apply Z.compare_lt_iff; lia).
    rewrite Hc. lia.
  - destruct (2 * (n mod d) ?= d); [destruct (Z.even (n / d)) | |]; lia.
Qed.

Lemma round53_nonneg (a b : positive) : (0 <= round53 a b)%Q.
Proof.
  unfold round53. set (k := 52 - exponent a b).
  destruct (0 <=? k) eqn:Hk.
  - apply Z.leb_le in Hk.
    assert (Hp : 0 < 2 ^ k) by (apply Z.pow_pos_nonneg; lia).
    assert (Hr : 0 <= rnd_half_even (Zpos a * 2 ^ k) (Zpos b))
      by (apply rnd_half_even_nonneg; lia).
    rewrite Qred_correct. unfold Qle. cbn [Qnum Qden]. lia.
  - apply Z.leb_gt in Hk.
    assert (Hp : 0 < 2 ^ (- k)) by (apply Z.pow_pos_nonneg; lia).
    assert (Hr : 0 <= rnd_half_even (Zpos a) (Zpos b * 2 ^ (- k)))
      by (apply rnd_half_even_nonneg; lia).
    unfold Qle, inject_Z. cbn [Qnum Qden]. nia.
Qed.

Lemma fl_nonneg (x : Q) : (0 <= x)%Q -> (0 <= fl x)%Q.
Proof.
  destruct x as [p q]. unfold fl. cbn [Qnum Qden].
  destruct p as [| a | a]; intros H.
  - apply Qle_refl.
  - apply (round53_nonneg a q).
  - unfold Qle in H. cbn [Qnum Qden] in H. lia.
Qed.

Lemma exponent_le (a b : positive) :
  exponent a b <= Z.log2 (Zpos a) - Z.log2 (Zpos b).
Proof. unfold exponent. destruct (ge_pow2 a b _); lia. Qed.

(** A positive rational below an integer of at most 52 bits rounds to a
    number below that integer. *)
Lemma round53_le (a b : positive) (n : Z) :
  0 < n -> Z.log2 n < 52 -> Zpos a <= n * Zpos b ->
  (round53 a b <= inject_Z n)%Q.
Proof.
  intros Hn Hbits Hle.
  assert (Hl : Z.log2 (Zpos a) <= Z.log2 n + Z.log2 (Zpos b) + 1).
  { etransitivity; [apply Z.log2_le_mono, Hle |].
    apply Z.log2_mul_above; lia. }
  pose proof (exponent_le a b) as He.
  unfold round53. set (k := 52 - exponent a b).
  assert (Hk : 0 <= k) by lia.
  rewrite (proj2 (Z.leb_le 0 k) Hk).
  assert (Hp : 0 < 2 ^ k) by (apply Z.pow_pos_nonneg; lia).
  assert (Hr : rnd_half_even (Zpos a * 2 ^ k) (Zpos b) <= n * 2 ^ k)
    by (apply rnd_half_even_le; [lia | nia]).
  rewrite Qred_correct. unfold Qle, inject_Z. cbn [Qnum Qden].
  rewrite Z2Pos.id by exact Hp. lia.
Qed.

Lemma fl_le_int (x : Q) (n : Z) :
  0 < n -> Z.log2 n < 52 -> (x <= inject_Z n)%Q -> (fl x <= inject_Z n)%Q.
Proof.
  intros Hn Hbits. destruct x as [p q]. unfold fl. cbn [Qnum Qden].
  destruct p as [| a | a]; intros H.
  - unfold Qle, inject_Z. cbn [Qnum Qden]. lia.
  - apply round53_le; try assumption.
    unfold Qle, inject_Z in H. cbn [Qnum Qden] in H. lia.
  - apply Qle_trans with 0%Q.
    + apply (Qopp_le_compat 0), round53_nonneg.
    + unfold Qle, inject_Z. cbn [Qnum Qden]. lia.
Qed.

Lemma to_int_bounds (x : Q) (n : Z) :
  (0 <= x)%Q -> (x <= inject_Z n)%Q -> 0 <= to_int x <= n.
Proof.
  destruct x as [p q]. unfold Qle, to_int, inject_Z. cbn [Qnum Qden].
  intros Hp Hle.
  rewrite Z.quot_div_nonneg by lia. split.
  - apply Z.div_pos; lia.
  - apply Z.div_le_upper_bound; lia.
Qed.

Lemma to_int_nonneg (x : Q) : (0 <= x)%Q -> 0 <= to_int x.
Proof.
  destruct x as [p q]. unfold Qle, to_int. cbn [Qnum Qden].
  intros Hp.
  rewrite Z.quot_div_nonneg by lia. apply Z.div_pos; lia.
Qed.

Lemma ltb_false_le (x y : Q) : ltb x y = false -> (y <= x)%Q.
Proof.
  unfold ltb. intros H. apply Qle_bool_iff.
  now destruct (Qle_bool y x).
Qed.

Lemma ltb_true_lt (x y : Q) : ltb x y = true -> (x < y)%Q.
Proof.
  unfold ltb. intros H. apply Qnot_le_lt. intros Hle.
  apply Qle_bool_iff in Hle. rewrite Hle in H. discriminate.
Qed.

Lemma max_lower (a b : Q) : (a <= max a b)%Q.
Proof.
  unfold max. destruct (ltb a b) eqn:E.
  - apply Qlt_le_weak, ltb_true_lt, E.
  - apply Qle_refl.
Qed.

(** [min(hi, max(lo, y))] lies between [lo] and [hi]. *)
Lemma clamp_bounds (lo hi y : Q) :
  (lo <= hi)%Q -> (lo <= min hi (max lo y) <= hi)%Q.
Proof.
  intros H. unfold min. destruct (ltb (max lo y) hi) eqn:E.
  - split; [apply max_lower | apply Qlt_le_weak, ltb_true_lt, E].
  - split; [exact H | apply Qle_refl].
Qed.

End FloatFacts.

(** * Properties of the simulator *)

Module SimFacts.

Import Py Sim.

Lemma max_is_Zmax (a b : Z) : max a b = Z.max a b.
Proof. unfold max. destruct (Z.ltb_spec a b); lia. Qed.

Lemma min_is_Zmin (a b : Z) : min a b = Z.min a b.
Proof. unfold min. destruct (Z.ltb_spec b a); lia. Qed.

(** ** The power step *)

Lemma power_step_bounds (sp pw jitter : Z) :
  0 <= power_step sp pw jitter <= 5000.
Proof. unfold power_step. rewrite max_is_Zmax, min_is_Zmin. lia. Qed.

(** [int(delta * 0.3)] on the limited gap is three tenths of it, cut toward
    zero: the rounding of [0.3] and of the product never shows. *)
Lemma int_three_tenths (delta : Z) :
  -50 <= delta <= 50 ->
  Float.to_int (Float.mul (Float.of_int delta) (Float.fl (3 # 10)))
  = Z.quot (3 * delta) 10.
Proof.
  intros H.
  assert (Hall :
    forallb (fun k : nat =>
      let delta := -50 + Z.of_nat k in
      Float.to_int (Float.mul (Float.of_int delta) (Float.fl (3 # 10)))
      =? Z.quot (3 * delta) 10) (seq 0 101) = true)
    by (vm_compute; reflexivity).
  rewrite forallb_forall in Hall.
  specialize (Hall (Z.to_nat (delta + 50))).
  cbv zeta in Hall.
  replace (-50 + Z.of_nat (Z.to_nat (delta + 50))) with delta in Hall by lia.
  apply Z.eqb_eq, Hall. apply in_seq. lia.
Qed.

Lemma power_step_value (sp pw jitter : Z) :
  power_step sp pw jitter
  = let gap := Z.max (-50) (Z.min 50 (sp - pw)) in
    Z.max 0 (Z.min 5000
      (if 10 <? Z.abs gap then pw + Z.quot (3 * gap) 10 else pw + jitter)).
Proof.
  unfold power_step. cbv zeta.
  rewrite !max_is_Zmax, !min_is_Zmin.
  rewrite int_three_tenths by lia. reflexivity.
Qed.

(** ** State of charge and current *)

Lemma soc_step_bounds (r : Z) (jitter : Q) : 0 <= soc_step r jitter <= 1000.
Proof.
  unfold soc_step.
  set (soc := Float.min 100 (Float.max 0 _)).
  assert (Hsoc : (0 <= soc <= 100)%Q)
    by (apply FloatFacts.clamp_bounds; discriminate).
  assert (Hlo : (0 <= soc * 10)%Q)
    by (apply Qmult_le_0_compat; [tauto | discriminate]).
  assert (Hhi : (soc * 10 <= inject_Z 1000)%Q).
  { change (inject_Z 1000) with (100 * 10)%Q.
    apply Qmult_le_compat_r; [tauto | discriminate]. }
  apply FloatFacts.to_int_bounds.
  - apply FloatFacts.fl_nonneg, Hlo.
  - apply FloatFacts.fl_le_int; [lia | reflexivity | exact Hhi].
Qed.

Lemma current_step_nonneg (pw v : Z) : 0 <= current_step pw v.
Proof.
  unfold current_step. apply FloatFacts.to_int_nonneg, FloatFacts.max_lower.
Qed.

(** ** One tick on a block of [HR_LEN] registers *)

(** The tick raises nothing, writes the registers 1 to 6 and leaves the
    others. *)
Lemma tick_block (d : Draws) (t : Q) (b : block) :
  length b = HR_LEN ->
  tick d t b
  = (Ok tt,
     let pw := power_step (reg b 7) (reg b 2) (jitter_pw d) in
     let v := 2300 + jitter_v d in
     reg b 0 :: 1 :: pw :: v :: current_step pw v
       :: temp_step t (reg b 5) (jitter_temp d)
       :: soc_step (reg b 6) (jitter_soc d) :: skipn 7 b).
Proof.
  intros H.
  do 16 (destruct b as [| ? b]; [discriminate H |]).
  destruct b; [reflexivity | discriminate H].
Qed.

Lemma tick_length (d : Draws) (t : Q) (b : block) :
  length b = HR_LEN -> length (snd (tick d t b)) = HR_LEN.
Proof.
  intros H. rewrite (tick_block d t b H). cbn [snd length].
  rewrite length_skipn, H. reflexivity.
Qed.

Lemma tick_clamped (d : Draws) (t : Q) (b : block) :
  length b = HR_LEN -> clamped (snd (tick d t b)).
Proof.
  intros H. rewrite (tick_block d t b H). unfold clamped, reg.
  cbn [snd nth]. split; [| split].
  - apply power_step_bounds.
  - apply soc_step_bounds.
  - apply current_step_nonneg.
Qed.

Lemma updater_step_block (d : Draws) (b : block) (t : Q) :
  fst (updater_step d (b, t)) = snd (tick d t b).
Proof.
  unfold updater_step. destruct (tick d t b) as [[[] | e] b1]; reflexivity.
Qed.

Lemma updater_clamped (ds : list Draws) (b : block) (t : Q) :
  length b = HR_LEN -> clamped b -> clamped (fst (updater ds (b, t))).
Proof.
  revert b t. induction ds as [| d rest IH]; intros b t Hlen Hc;
    cbn [updater].
  - exact Hc.
  - pose proof (updater_step_block d b t) as Hb.
    destruct (updater_step d (b, t)) as [b1 t1]. cbn [fst] in Hb. subst b1.
    apply IH; [apply tick_length | apply tick_clamped]; exact Hlen.
Qed.

(** ** The claims on the simulator *)

(** C8 (as the code has it).  On a tick over a block of [HR_LEN] registers
    the gap [setpoint_w - power_w] is first limited to [-50, 50]; when the
    limited gap exceeds 10 in size [power_w] moves by three tenths of the
    limited gap, cut toward zero, and otherwise by the jitter drawn from
    [-5, 5], so by at most 15 either way; the result is clamped to
    [0, 5000]. *)
Theorem power_drift (d : Draws) (t : Q) (b : block) :
  length b = HR_LEN -> in_range d ->
  let sp := reg b 7 in
  let pw := reg b 2 in
  let gap := Z.max (-50) (Z.min 50 (sp - pw)) in
  let step :=
    if 10 <? Z.abs gap then Z.quot (3 * gap) 10 else jitter_pw d in
  fst (tick d t b) = Ok tt /\
  reg (snd (tick d t b)) 2 = Z.max 0 (Z.min 5000 (pw + step)) /\
  -15 <= step <= 15.
Proof.
  intros H [Hj _] sp pw gap step. rewrite (tick_block d t b H).
  split; [reflexivity |]. split.
  - unfold reg at 1. cbn [snd nth]. rewrite power_step_value.
    fold sp pw. cbv zeta. fold gap. unfold step.
    now destruct (10 <? Z.abs gap).
  - unfold step. destruct (10 <? Z.abs gap); [| lia].
    assert (Hg : -50 <= gap <= 50) by lia.
    pose proof (Z.quot_le_mono (3 * gap) 150 10 ltac:(lia) ltac:(lia)) as Hu.
    pose proof (Z.quot_le_mono (-150) (3 * gap) 10 ltac:(lia) ltac:(lia)) as Hl.
    change (Z.quot 150 10) with 15 in Hu.
    change (Z.quot (-150) 10) with (-15) in Hl.
    lia.
Qed.

Lemma power_drift_witness :
  length initial = HR_LEN /\ in_range (mkDraws 3 (-4) 0 0) /\
  reg (snd (tick (mkDraws 3 (-4) 0 0) 0 initial)) 2 = 1203.
Proof.
  assert (Hd : in_range (mkDraws 3 (-4) 0 0)).
  { unfold in_range. cbn [jitter_pw jitter_v jitter_temp jitter_soc].
    repeat split; try lia; discriminate. }
  split; [reflexivity |]. split; [exact Hd |].
  exact (proj1 (proj2 (power_drift (mkDraws 3 (-4) 0 0) 0 initial eq_refl Hd))).
Defined.

(** C8 fails as stated: with the setpoint at 1400 W and the power at 1200 W
    the gap of 200 W exceeds 10 W, 30% of it is 60 W, and the tick moves the
    power by 15 W, to 1215 W. *)
Lemma power_drift_limited :
  let b := snd (set_reg 7 1400 initial) in
  let d := mkDraws 0 0 0 0 in
  10 < Z.abs (reg b 7 - reg b 2) /\
  spec_power_step (reg b 7) (reg b 2) (jitter_pw d) = 1260 /\
  reg (snd (tick d 0 b)) 2 = 1215 /\
  reg (snd (tick d 0 b)) 2 <> spec_power_step (reg b 7) (reg b 2) (jitter_pw d).
Proof. vm_compute. repeat split; congruence. Qed.

Lemma setpoint_write (v : Z) (b : block) :
  length b = HR_LEN ->
  length (snd (set_reg 7 v b)) = HR_LEN /\
  (clamped b -> clamped (snd (set_reg 7 v b))).
Proof.
  intros H.
  do 16 (destruct b as [| ? b]; [discriminate H |]).
  destruct b; [| discriminate H].
  split; [reflexivity | intros Hc; exact Hc].
Qed.

Lemma updater_with_writes_clamped
  (steps : list (option Z * Draws)) (b : block) (t : Q) :
  length b = HR_LEN -> clamped b ->
  clamped (fst (updater_with_writes steps (b, t))).
Proof.
  revert b t. induction steps as [| [w d] rest IH]; intros b t Hlen Hc;
    cbn [updater_with_writes].
  - exact Hc.
  - set (b1 := match w with
               | Some v => snd (set_reg 7 v b)
               | None => b
               end).
    assert (Hlen1 : length b1 = HR_LEN).
    { unfold b1. destruct w; [apply setpoint_write |]; exact Hlen. }
    pose proof (updater_step_block d b1 t) as Hb.
    destruct (updater_step d (b1, t)) as [b2 t2]. cbn [fst] in Hb. subst b2.
    apply IH; [apply tick_length | apply tick_clamped]; exact Hlen1.
Qed.

(** C9.  The bounds are an invariant of the tick step on the register
    block: from any block of [HR_LEN] registers, whatever it holds (any
    setpoint, any power), after one iteration of the updater and after any
    further iterations, with the setpoint rewritten to any value before any
    of them and whatever the iterations draw, [power_w] is in [0, 5000],
    the state of charge in [0, 100] percent (0 to 1000 in the register) and
    the current is not negative; so it is after any number of iterations
    from the block of [make_context]. *)
Theorem simulator_clamping
  (d : Draws) (steps : list (option Z * Draws)) (ds : list Draws)
  (b : block) (t : Q) :
  length b = HR_LEN ->
  let b1 := fst (updater_with_writes steps (updater_step d (b, t))) in
  let b0 := fst (updater ds (initial, 0%Q)) in
  (0 <= reg b1 2 <= 5000 /\ 0 <= reg b1 6 <= 1000 /\ 0 <= reg b1 4) /\
  (0 <= reg b0 2 <= 5000 /\ 0 <= reg b0 6 <= 1000 /\ 0 <= reg b0 4).
Proof.
  intros Hlen b1 b0. split.
  - unfold b1. pose proof (updater_step_block d b t) as Hb.
    destruct (updater_step d (b, t)) as [b2 t2]. cbn [fst] in Hb. subst b2.
    apply updater_with_writes_clamped;
      [apply tick_length | apply tick_clamped]; exact Hlen.
  - apply updater_clamped; [reflexivity |].
    unfold clamped. vm_compute. repeat split; discriminate.
Qed.

Lemma simulator_clamping_witness :
  let b := [1001; 1; 5000; 2300; 500; 550; 1000; 6000;
            0; 0; 0; 0; 0; 0; 0; 0] in
  let d := mkDraws 5 15 (1 # 2) (1 # 5) in
  let steps := [(Some 65535, d); (None, d); (Some 0, mkDraws (-5) 0 0 0)] in
  length b = HR_LEN /\
  reg (fst (updater_step d (b, 0%Q))) 2 = 5000 /\
  0 <= reg (fst (updater_with_writes steps (updater_step d (b, 0%Q)))) 2
    <= 5000.
Proof.
  intros b d steps. split; [reflexivity |]. split; [vm_compute; reflexivity |].
  exact (proj1 (proj1 (simulator_clamping d steps [] b 0 eq_refl))).
Defined.

End SimFacts.

(** * More on the rounding: bounds by binary fractions, exact integers *)

Module Rounding.

Import Float.

Lemma rnd_half_even_ge (n d m : Z) :
  0 < d -> m * d <= n -> m <= rnd_half_even n d.
Proof.
  intros Hd Hle. unfold rnd_half_even.
  assert (Hq : m <= n / d) by (apply Z.div_le_lower_bound; lia).
  destruct (2 * (n mod d) ?= d); [destruct (Z.even (n / d)) | |]; lia.
Qed.

Lemma rnd_half_even_exact (n : Z) : rnd_half_even n 1 = n.
Proof.
  unfold rnd_half_even. rewrite Z.div_1_r, Z.mod_1_r. reflexivity.
Qed.

(** The exponent of a rational that is at most [m / 2 ^ j]. *)
Lemma exponent_dyadic (a b d : positive) (m j : Z) :
  Zpos d = 2 ^ j -> 0 <= j -> 0 < m ->
  Zpos a * Zpos d <= m * Zpos b ->
  exponent a b <= Z.log2 m + 1 - j.
Proof.
  intros Hd Hj Hm Hle.
  pose proof (FloatFacts.exponent_le a b) as He.
  assert (H1 : Z.log2 (Zpos a * 2 ^ j) = j + Z.log2 (Zpos a))
    by (apply Z.log2_mul_pow2; lia).
  assert (H2 : Z.log2 (Zpos a * 2 ^ j) <= Z.log2 (m * Zpos b))
    by (apply Z.log2_le_mono; lia).
  assert (H3 : Z.log2 (m * Zpos b) <= Z.log2 m + Z.log2 (Zpos b) + 1)
    by (apply Z.log2_mul_above; lia).
  lia.
Qed.

Section Dyadic.

Variables (a b d : positive) (n m j : Z).
Hypothesis Hd : Zpos d = 2 ^ j.
Hypothesis Hj : 0 <= j.
Hypothesis Hm : 0 < m.
Hypothesis Hbits : Z.log2 m < 52.
Hypothesis Hhi : Zpos a * Zpos d <= m * Zpos b.

Lemma shift_split :
  let k := 52 - exponent a b in
  0 <= k - j /\ 2 ^ k = 2 ^ j * 2 ^ (k - j) /\ 0 < 2 ^ (k - j) /\ 0 < 2 ^ k.
Proof.
  intros k.
  pose proof (exponent_dyadic a b d m j Hd Hj Hm Hhi) as He.
  assert (Hk : 0 <= k - j) by (unfold k; lia).
  split; [exact Hk |]. split.
  - rewrite <- Z.pow_add_r by lia. f_equal. lia.
  - split; apply Z.pow_pos_nonneg; lia.
Qed.

Lemma round53_dyadic_le : (round53 a b <= m # d)%Q.
Proof.
  destruct shift_split as [Hk [Hs [Hp Hpk]]].
  unfold round53. set (k := 52 - exponent a b) in *.
  rewrite (proj2 (Z.leb_le 0 k)) by lia.
  assert (Hr : rnd_half_even (Zpos a * 2 ^ k) (Zpos b) <= m * 2 ^ (k - j)).
  { apply FloatFacts.rnd_half_even_le; [lia |].
    rewrite Hs, <- Hd.
    pose proof (Z.mul_le_mono_nonneg_r _ _ (2 ^ (k - j)) ltac:(lia) Hhi).
    lia. }
  set (R := rnd_half_even _ _) in *.
  rewrite Qred_correct. unfold Qle. cbn [Qnum Qden].
  rewrite Z2Pos.id by exact Hpk. rewrite Hs, <- Hd.
  pose proof (Z.mul_le_mono_nonneg_r _ _ (Zpos d) ltac:(lia) Hr).
  lia.
Qed.

Hypothesis Hlo : n * Zpos b <= Zpos a * Zpos d.

Lemma round53_dyadic_ge : (n # d <= round53 a b)%Q.
Proof.
  destruct shift_split as [Hk [Hs [Hp Hpk]]].
  unfold round53. set (k := 52 - exponent a b) in *.
  rewrite (proj2 (Z.leb_le 0 k)) by lia.
  assert (Hr : n * 2 ^ (k - j) <= rnd_half_even (Zpos a * 2 ^ k) (Zpos b)).
  { apply rnd_half_even_ge; [lia |].
    rewrite Hs, <- Hd.
    pose proof (Z.mul_le_mono_nonneg_r _ _ (2 ^ (k - j)) ltac:(lia) Hlo).
    lia. }
  set (R := rnd_half_even _ _) in *.
  rewrite Qred_correct. unfold Qle. cbn [Qnum Qden].
  rewrite Z2Pos.id by exact Hpk. rewrite Hs, <- Hd.
  pose proof (Z.mul_le_mono_nonneg_r _ _ (Zpos d) ltac:(lia) Hr).
  lia.
Qed.

End Dyadic.

(** Rounding never passes a binary fraction [m / 2 ^ j] of at most 52 bits
    from below. *)
Lemma fl_le_dyadic (x : Q) (m j : Z) (d : positive) :
  Zpos d = 2 ^ j -> 0 <= j -> 0 < m -> Z.log2 m < 52 ->
  (x <= m # d)%Q -> (fl x <= m # d)%Q.
Proof.
  intros Hd Hj Hm Hbits. destruct x as [p q]. unfold fl. cbn [Qnum Qden].
  destruct p as [| a | a]; intros H.
  - unfold Qle. cbn [Qnum Qden]. lia.
  - unfold Qle in H. cbn [Qnum Qden] in H.
    apply (round53_dyadic_le a q d m j); assumption || lia.
  - apply Qle_trans with 0%Q.
    + apply (Qopp_le_compat 0), FloatFacts.round53_nonneg.
    + unfold Qle. cbn [Qnum Qden]. lia.
Qed.

(** Nor from above, for a number with such an upper bound. *)
Lemma fl_ge_dyadic (x : Q) (n m j : Z) (d : positive) :
  Zpos d = 2 ^ j -> 0 <= j -> 0 < n -> Z.log2 m < 52 ->
  (n # d <= x)%Q -> (x <= m # d)%Q -> (n # d <= fl x)%Q.
Proof.
  intros Hd Hj Hn Hbits Hlo Hhi. destruct x as [p q].
  unfold Qle in Hlo, Hhi. cbn [Qnum Qden] in Hlo, Hhi.
  unfold fl. cbn [Qnum Qden].
  destruct p as [| a | a]; try lia.
  assert (Hm : 0 < m) by nia.
  apply (round53_dyadic_ge a q d n m j); assumption || lia.
Qed.

Lemma fl_nonpos (x : Q) : (x <= 0)%Q -> (fl x <= 0)%Q.
Proof.
  destruct x as [p q]. unfold fl. cbn [Qnum Qden].
  destruct p as [| a | a]; intros H.
  - apply Qle_refl.
  - unfold Qle in H. cbn [Qnum Qden] in H. lia.
  - apply (Qopp_le_compat 0), FloatFacts.round53_nonneg.
Qed.

(** Integers below [2 ^ 53] in size are floats. *)
Lemma round53_int (a : positive) :
  Zpos a < 2 ^ 53 -> round53 a 1 = inject_Z (Zpos a).
Proof.
  intros Ha.
  assert (Hl : Z.log2 (Zpos a) < 53) by (apply Z.log2_lt_pow2; lia).
  assert (He : exponent a 1 = Z.log2 (Zpos a)).
  { unfold exponent, ge_pow2. change (Z.log2 1) with 0.
    rewrite Z.sub_0_r.
    pose proof (Z.log2_nonneg (Zpos a)) as H0.
    rewrite (proj2 (Z.leb_le 0 _) H0).
    pose proof (Z.log2_spec (Zpos a) ltac:(lia)) as [Hs _].
    rewrite (proj2 (Z.leb_le _ _)) by lia. reflexivity. }
  unfold round53. rewrite He.
  set (k := 52 - Z.log2 (Zpos a)).
  rewrite (proj2 (Z.leb_le 0 k)) by (unfold k; lia).
  assert (Hp : 0 < 2 ^ k) by (apply Z.pow_pos_nonneg; unfold k; lia).
  rewrite rnd_half_even_exact.
  rewrite (Qred_complete _ (inject_Z (Zpos a))).
  - apply Qcanon.Qred_identity. apply Z.gcd_1_r.
  - unfold Qeq, inject_Z. cbn [Qnum Qden].
    rewrite Z2Pos.id by exact Hp. lia.
Qed.

Lemma fl_int (z : Z) : Z.abs z < 2 ^ 53 -> of_int z = inject_Z z.
Proof.
  intros H. unfold of_int, fl, inject_Z. cbn [Qnum Qden].
  destruct z as [| a | a].
  - reflexivity.
  - apply round53_int. lia.
  - rewrite round53_int by lia. reflexivity.
Qed.

Lemma to_int_inject (z : Z) : to_int (inject_Z z) = z.
Proof. unfold to_int, inject_Z. cbn [Qnum Qden]. apply Z.quot_1_r. Qed.

(** Both bounds at once. *)
Lemma fl_between (x : Q) (n m j : Z) (d : positive) :
  Zpos d = 2 ^ j -> 0 <= j -> 0 < n -> Z.log2 m < 52 ->
  (n # d <= x <= m # d)%Q -> (n # d <= fl x <= m # d)%Q.
Proof.
  intros Hd Hj Hn Hbits [Hlo Hhi].
  assert (Hm : 0 < m).
  { pose proof (Qle_trans _ _ _ Hlo Hhi) as H.
    unfold Qle in H. cbn [Qnum Qden] in H. nia. }
  split.
  - now apply (fl_ge_dyadic x n m j d).
  - now apply (fl_le_dyadic x m j d).
Qed.

Lemma to_int_ge (x : Q) (n : Z) :
  0 <= n -> (inject_Z n <= x)%Q -> n <= to_int x.
Proof.
  destruct x as [p q]. unfold Qle, to_int, inject_Z. cbn [Qnum Qden].
  intros Hn Hle.
  rewrite Z.quot_div_nonneg by lia.
  apply Z.div_le_lower_bound; lia.
Qed.

End Rounding.

(** * More on the client *)

Module ClientMore.

Import Py Client.

(** ** The alarm *)

Lemma update_counts (s : AlarmState) (temp ts : Q) :
  (b2n (is_event Raised (fst (update s temp ts))) + b2n (active s)
   = b2n (is_event Cleared (fst (update s temp ts)))
     + b2n (active (snd (update s temp ts))))%nat.
Proof.
  unfold update. destruct (active s) eqn:Ha.
  - destruct (Float.ltb temp (lo s)); [| simpl; now rewrite Ha].
    destruct (Float.leb _ _); simpl; [reflexivity | now rewrite Ha].
  - destruct (Float.ltb (hi s) temp); [| simpl; now rewrite Ha].
    destruct (Float.leb _ _); simpl; [reflexivity | now rewrite Ha].
Qed.

Lemma feed_counts (samples : list (Q * Q)) (s : AlarmState) :
  (count_events Raised (fst (feed s samples)) + b2n (active s)
   = count_events Cleared (fst (feed s samples))
     + b2n (active (snd (feed s samples))))%nat.
Proof.
  revert s. induction samples as [| [temp ts] rest IH]; intros s.
  - reflexivity.
  - cbn [feed]. pose proof (update_counts s temp ts) as H1.
    destruct (update s temp ts) as [e s1]. cbn [fst snd] in H1.
    specialize (IH s1). destruct (feed s1 rest) as [es s2].
    cbn [fst snd] in *. unfold count_events in *. cbn [filter].
    destruct (is_event Raised e), (is_event Cleared e);
      cbn [length b2n] in *; lia.
Qed.

(** X1.  Over any calls to [update] on a fresh alarm, the [Raised] returned
    so far are as many as the [Cleared] when the alarm is inactive and one
    more when it is active: the two events alternate, starting with
    [Raised]. *)
Theorem events_alternate
  (hi lo raise_after clear_after : Q) (samples : list (Q * Q)) :
  let r := feed (AlarmState_init hi lo raise_after clear_after) samples in
  count_events Raised (fst r)
  = (count_events Cleared (fst r) + (if active (snd r) then 1 else 0))%nat.
Proof.
  intros r.
  pose proof (feed_counts samples
                (AlarmState_init hi lo raise_after clear_after)) as H.
  fold r in H. cbn [AlarmState_init active b2n] in H.
  unfold b2n in H. lia.
Qed.

Lemma band_not_above (s : AlarmState) (temp : Q) :
  in_band s temp -> Float.ltb (hi s) temp = false.
Proof.
  intros [_ H]. unfold Float.ltb.
  now rewrite (proj2 (Qle_bool_iff _ _) H).
Qed.

Lemma band_not_below (s : AlarmState) (temp : Q) :
  in_band s temp -> Float.ltb temp (lo s) = false.
Proof.
  intros [H _]. unfold Float.ltb.
  now rewrite (proj2 (Qle_bool_iff _ _) H).
Qed.

Lemma band_update (s : AlarmState) (temp ts : Q) :
  in_band s temp -> update s temp ts = (None, timer_dropped s).
Proof.
  intros Hb. unfold update, timer_dropped.
  rewrite (band_not_above s temp Hb), (band_not_below s temp Hb).
  now destruct (active s).
Qed.

Lemma timer_dropped_twice (s : AlarmState) :
  timer_dropped (timer_dropped s) = timer_dropped s.
Proof. unfold timer_dropped. destruct s as [? ? ? ? ? ? []]; reflexivity. Qed.

Lemma timer_dropped_band (s : AlarmState) (temp : Q) :
  in_band s temp -> in_band (timer_dropped s) temp.
Proof. unfold timer_dropped, in_band. now destruct (active s). Qed.

(** X2.  While the temperature stays inside the band [[lo, hi]], ends
    included, no event is returned and the alarm is left as it was but for
    the timer of its current state, which the first such sample unsets. *)
Theorem band_is_quiet (samples : list (Q * Q)) (s : AlarmState) :
  Forall (fun p => in_band s (fst p)) samples ->
  feed s samples
  = (repeat None (length samples),
     match samples with
     | [] => s
     | _ :: _ => if active s then set_low_since s None
                 else set_high_since s None
     end).
Proof.
  change (if active s then set_low_since s None else set_high_since s None)
    with (timer_dropped s).
  revert s. induction samples as [| [temp ts] rest IH]; intros s H.
  - reflexivity.
  - inversion H as [| ? ? Hx Hrest]; subst. cbn [fst] in Hx.
    cbn [feed]. rewrite (band_update s temp ts Hx).
    rewrite IH.
    + cbn [length repeat]. f_equal.
      destruct rest; [reflexivity | apply timer_dropped_twice].
    + eapply Forall_impl; [| exact Hrest].
      intros p. apply timer_dropped_band.
Qed.

Lemma band_is_quiet_witness :
  let s := set_high_since default_alarm (Some 3%Q) in
  let samples := [(60%Q, 4%Q); (58%Q, 5%Q); (59%Q, 1000%Q)] in
  Forall (fun p => in_band s (fst p)) samples /\
  feed s samples = ([None; None; None], default_alarm).
Proof.
  intros s samples.
  assert (H : Forall (fun p => in_band s (fst p)) samples).
  { repeat constructor; cbn; discriminate. }
  split; [exact H |]. exact (band_is_quiet samples s H).
Defined.

(** X3.  An event is returned only on a real crossing whose timer has run
    out: [Raised] only by an inactive alarm, on a sample above [hi], at least
    [raise_after] after the timer's start, and [Cleared] only by an active
    alarm, on a sample below [lo], at least [clear_after] after it; the call
    flips [active], unsets that timer and changes nothing else. *)
Theorem event_justified (s : AlarmState) (temp ts : Q) (e : event) :
  fst (update s temp ts) = Some e ->
  match e with
  | Raised =>
      active s = false /\ (hi s < temp)%Q /\
      (raise_after s <= Float.sub ts (since_or (high_since s) ts))%Q /\
      snd (update s temp ts) = set_high_since (set_active s true) None
  | Cleared =>
      active s = true /\ (temp < lo s)%Q /\
      (clear_after s <= Float.sub ts (since_or (low_since s) ts))%Q /\
      snd (update s temp ts) = set_low_since (set_active s false) None
  end.
Proof.
  unfold update. destruct (active s) eqn:Ha.
  - destruct (Float.ltb temp (lo s)) eqn:Hc; [| discriminate].
    destruct (Float.leb _ _) eqn:Ht; [| discriminate].
    intros [= <-]. repeat split.
    + apply FloatFacts.ltb_true_lt, Hc.
    + apply Qle_bool_iff, Ht.
  - destruct (Float.ltb (hi s) temp) eqn:Hc; [| discriminate].
    destruct (Float.leb _ _) eqn:Ht; [| discriminate].
    intros [= <-]. repeat split.
    + apply FloatFacts.ltb_true_lt, Hc.
    + apply Qle_bool_iff, Ht.
Qed.

Lemma event_justified_witness :
  let s := set_high_since default_alarm (Some 0%Q) in
  fst (update s 61 5) = Some Raised /\
  active (snd (update s 61 5)) = true /\ high_since (snd (update s 61 5)) = None.
Proof.
  intros s.
  assert (H : fst (update s 61 5) = Some Raised) by reflexivity.
  destruct (event_justified s 61 5 Raised H) as [_ [_ [_ Hs]]].
  split; [exact H |]. rewrite Hs. split; reflexivity.
Defined.

Lemma sub_self (t : Q) : Float.sub t t = 0%Q.
Proof.
  destruct t as [p q]. unfold Float.sub, Float.fl, Qminus, Qplus, Qopp.
  cbn [Qnum Qden].
  replace (p * Zpos q + - p * Zpos q) with 0 by ring. reflexivity.
Qed.

(** X4.  The sample that starts a timer returns an event only when the delay
    is zero or negative: with both timers unset, the first sample above [hi]
    (below [lo] when active) returns [Raised] ([Cleared]) at once if
    [raise_after <= 0] ([clear_after <= 0]) and otherwise returns nothing
    and starts the timer at its timestamp. *)
Theorem first_crossing (s : AlarmState) (temp ts : Q) :
  high_since s = None -> low_since s = None ->
  (if active s then temp < lo s else hi s < temp)%Q ->
  update s temp ts
  = if active s then
      if Qle_bool (clear_after s) 0 then (Some Cleared, set_active s false)
      else (None, set_low_since s (Some ts))
    else
      if Qle_bool (raise_after s) 0 then (Some Raised, set_active s true)
      else (None, set_high_since s (Some ts)).
Proof.
  intros Hh Hl Hc. unfold update.
  destruct s as [h l ra ca hs ls a]. cbn in *. subst hs ls.
  destruct a; cbn [since_or].
  - unfold Float.ltb. rewrite sub_self.
    destruct (Qle_bool l temp) eqn:E.
    + apply Qle_bool_iff in E. exfalso. apply (Qlt_not_le _ _ Hc E).
    + cbn [negb]. unfold Float.leb. now destruct (Qle_bool ca 0).
  - unfold Float.ltb. rewrite sub_self.
    destruct (Qle_bool temp h) eqn:E.
    + apply Qle_bool_iff in E. exfalso. apply (Qlt_not_le _ _ Hc E).
    + cbn [negb]. unfold Float.leb. now destruct (Qle_bool ra 0).
Qed.

Lemma first_crossing_witness :
  update default_alarm 75 (1234 # 10)
  = (None, set_high_since default_alarm (Some (1234 # 10)%Q)) /\
  update (AlarmState_init 60 58 0 0) 75 (1234 # 10)
  = (Some Raised, set_active (AlarmState_init 60 58 0 0) true).
Proof.
  split.
  - exact (first_crossing default_alarm 75 (1234 # 10)
             eq_refl eq_refl eq_refl).
  - exact (first_crossing (AlarmState_init 60 58 0 0) 75 (1234 # 10)
             eq_refl eq_refl eq_refl).
Defined.

(** ** The poll loop *)

(** X5.  Failed cycles never touch the alarm: over an outage of any length
    nothing is raised or cleared and a running debounce timer keeps its
    start, so the first good sample after it is judged against the old
    timer. *)
Theorem outage_keeps_alarm (inputs : list (response * Q)) (st : PollState) :
  Forall fails inputs -> alarm (run inputs st) = alarm st.
Proof.
  intros H. revert st.
  induction H as [| [r now] rest Hx _ IH]; intros st; cbn [run].
  - reflexivity.
  - rewrite IH. unfold poll_cycle, transaction.
    unfold fails in Hx. cbn [fst] in Hx.
    destruct (acquire r); [discriminate | reflexivity].
Qed.

Lemma outage_keeps_alarm_witness :
  let armed := {| alarm := set_high_since default_alarm (Some 0%Q);
                  backoff := 0 |} in
  let outage := [(ConnectFailed, 1%Q); (Registers [], 3%Q)] in
  Forall fails outage /\
  high_since (alarm (run outage armed)) = Some 0%Q.
Proof.
  intros armed outage.
  assert (H : Forall fails outage) by (repeat constructor).
  split; [exact H |].
  exact (f_equal high_since (outage_keeps_alarm outage armed H)).
Defined.

(** X6.  Every cycle publishes one telemetry message, first: the good sample
    when the registers were read and decoded, and then at most one alarm
    message, or the bad-quality message carrying the exception and nothing
    else. *)
Theorem cycle_messages (r : response) (now : Q) (st : PollState) :
  match acquire r with
  | Ok sample =>
      exists alarms,
        fst (poll_cycle r now st) = TelemetryGood sample :: alarms /\
        (length alarms <= 1)%nat /\
        forallb (fun m => negb (is_telemetry m)) alarms = true
  | Raise e => fst (poll_cycle r now st) = [TelemetryBad e]
  end.
Proof.
  unfold poll_cycle, transaction.
  destruct (acquire r) as [sample | e]; cbn [bind]; [| reflexivity].
  destruct (update (alarm st) (temp_c sample) now) as [[[] |] a1];
    cbn [fst]; eexists; (split; [reflexivity |]); split;
    cbn; try lia; reflexivity.
Qed.

Lemma next_backoff_listed (b : Q) :
  In b [0; 1; 2; 4; 8; 16; 30]%Q ->
  In (next_backoff b) [0; 1; 2; 4; 8; 16; 30]%Q.
Proof.
  cbn [In]. intros H.
  repeat (destruct H as [<- | H]; [vm_compute; tauto |]).
  contradiction.
Qed.

(** X7.  Whatever the cycles of a run are, failed or not and in any order,
    the backoff delay is one of 0, 1, 2, 4, 8, 16 and 30, so it is never
    negative and never above [MAX_BACKOFF]. *)
Theorem backoff_bounded (inputs : list (response * Q)) :
  In (backoff (run inputs initial)) [0; 1; 2; 4; 8; 16; 30]%Q /\
  (0 <= backoff (run inputs initial) <= MAX_BACKOFF)%Q.
Proof.
  assert (Hgen : forall st, In (backoff st) [0; 1; 2; 4; 8; 16; 30]%Q ->
            In (backoff (run inputs st)) [0; 1; 2; 4; 8; 16; 30]%Q).
  { induction inputs as [| [r now] rest IH]; intros st Hst; cbn [run].
    - exact Hst.
    - apply IH. rewrite ClientFacts.poll_cycle_backoff.
      destruct (is_ok (acquire r)).
      + cbn. tauto.
      + apply next_backoff_listed, Hst. }
  assert (H : In (backoff (run inputs initial)) [0; 1; 2; 4; 8; 16; 30]%Q)
    by (apply Hgen; cbn; tauto).
  split; [exact H |].
  cbn [In] in H.
  repeat (destruct H as [<- | H]; [split; discriminate |]).
  contradiction.
Qed.

Lemma max0_bounds (x : Q) (n : Z) :
  0 <= n -> (x <= inject_Z n)%Q ->
  (0 <= Float.max 0 x <= inject_Z n)%Q.
Proof.
  intros Hn Hx. split; [apply FloatFacts.max_lower |].
  unfold Float.max. destruct (Float.ltb 0 x); [exact Hx |].
  unfold Qle, inject_Z. cbn [Qnum Qden]. lia.
Qed.

Lemma max0_nonpos (x : Q) : (x <= 0)%Q -> Float.max 0 x = 0%Q.
Proof.
  intros Hx. unfold Float.max, Float.ltb.
  now rewrite (proj2 (Qle_bool_iff _ _) Hx).
Qed.

(** X8.  With a whole number of seconds of backoff, as the loop only has, and
    the clock not running backwards, the loop sleeps at least the backoff
    and at most [BASE_PERIOD] more; a cycle that took the whole period or
    longer sleeps the backoff alone, so nothing at all while healthy. *)
Theorem sleep_bounds (elapsed : Q) (n : Z) :
  (0 <= elapsed)%Q -> 0 <= n < 2 ^ 50 ->
  (inject_Z n <= sleep_time elapsed (inject_Z n)
   <= BASE_PERIOD + inject_Z n)%Q /\
  (if Qle_bool BASE_PERIOD elapsed
   then sleep_time elapsed (inject_Z n) = inject_Z n
   else (0 <= Float.sub BASE_PERIOD elapsed)%Q).
Proof.
  intros He Hn. unfold sleep_time, BASE_PERIOD.
  assert (Hs : (Float.sub 1 elapsed <= inject_Z 1)%Q).
  { apply FloatFacts.fl_le_int; [lia | reflexivity |].
    unfold Qle, Qminus, Qplus, Qopp, inject_Z in *.
    destruct elapsed as [p q]. cbn [Qnum Qden] in *. lia. }
  destruct (max0_bounds _ 1 ltac:(lia) Hs) as [Hm0 Hm1].
  set (m := Float.max 0 (Float.sub 1 elapsed)) in *.
  assert (Hlo : (inject_Z n <= m + inject_Z n)%Q).
  { rewrite <- (Qplus_0_l (inject_Z n)) at 1.
    apply Qplus_le_compat; [exact Hm0 | apply Qle_refl]. }
  assert (Hhi : (m + inject_Z n <= inject_Z (n + 1))%Q).
  { apply Qle_trans with (inject_Z 1 + inject_Z n)%Q.
    - apply Qplus_le_compat; [exact Hm1 | apply Qle_refl].
    - unfold Qle, Qplus, inject_Z. cbn [Qnum Qden]. lia. }
  assert (Hbits : Z.log2 (n + 1) < 52).
  { apply Z.log2_lt_pow2; [lia |].
    assert (2 ^ 50 < 2 ^ 52) by (apply Z.pow_lt_mono_r; lia). lia. }
  split; [split |].
  - destruct (Z.eq_dec n 0) as [-> | Hnz].
    + apply FloatFacts.fl_nonneg. exact Hlo.
    + apply (Rounding.fl_ge_dyadic _ n (n + 1) 0 1);
        try reflexivity; try lia; assumption.
  - apply Qle_trans with (inject_Z (n + 1)).
    + apply FloatFacts.fl_le_int; [lia | exact Hbits | exact Hhi].
    + unfold Qle, Qplus, inject_Z. cbn [Qnum Qden]. lia.
  - destruct (Qle_bool 1 elapsed) eqn:E.
    + apply Qle_bool_iff in E.
      assert (Hneg : (Float.sub 1 elapsed <= 0)%Q).
      { apply Rounding.fl_nonpos.
        unfold Qle, Qminus, Qplus, Qopp in *.
        destruct elapsed as [p q]. cbn [Qnum Qden] in *. lia. }
      unfold m. rewrite (max0_nonpos _ Hneg).
      unfold Float.add.
      replace (0 + inject_Z n)%Q with (inject_Z n).
      * apply Rounding.fl_int.
        assert (2 ^ 50 < 2 ^ 53) by (apply Z.pow_lt_mono_r; lia). lia.
      * unfold Qplus, inject_Z. cbn [Qnum Qden]. f_equal. lia.
    + apply FloatFacts.fl_nonneg.
      assert (Hlt : (elapsed < 1)%Q).
      { apply Qnot_le_lt. intros H. apply Qle_bool_iff in H. congruence. }
      unfold Qlt, Qle, Qminus, Qplus, Qopp in *.
      destruct elapsed as [p q]. cbn [Qnum Qden] in *. lia.
Qed.

Lemma sleep_bounds_witness :
  (0 <= 3 # 2)%Q /\ 0 <= 8 < 2 ^ 50 /\
  sleep_time (3 # 2) (inject_Z 8) = inject_Z 8.
Proof.
  assert (He : (0 <= 3 # 2)%Q) by discriminate.
  assert (Hn : 0 <= 8 < 2 ^ 50) by (split; [lia | reflexivity]).
  split; [exact He |]. split; [exact Hn |].
  exact (proj2 (sleep_bounds (3 # 2) 8 He Hn)).
Defined.

(** ** Decoding *)

(** X9.  The sample depends on the registers 0 and 2 to 6 alone: the status
    bits in register 1, the setpoint in register 7 and anything after it are
    never read, and two blocks that agree on those six registers decode
    alike whatever their lengths. *)
Theorem decode_reads_six (regs regs' : list Z) :
  Forall (fun a => nth_error regs a = nth_error regs' a) decoded_addresses ->
  decode regs = decode regs'.
Proof.
  unfold decoded_addresses. intros H.
  repeat match goal with
         | H : Forall _ (_ :: _) |- _ =>
             let E := fresh "E" in
             let T := fresh "T" in
             inversion H as [| ? ? E T]; subst; clear H
         end.
  unfold decode, getitem.
  unfold ADDR_DEVICE_ID, ADDR_POWER_W, ADDR_VOLT_x10, ADDR_CURR_x100,
    ADDR_TEMP_x10, ADDR_SOC_x10 in *.
  now rewrite E, E0, E1, E2, E3, E4.
Qed.

Lemma decode_reads_six_witness :
  decode [1001; 1; 1200; 2300; 500; 550; 700; 1200; 0; 0]
  = decode [1001; 255; 1200; 2300; 500; 550; 700].
Proof.
  apply decode_reads_six. repeat constructor.
Defined.

Lemma scaled_bounds (r : Z) :
  is_register r ->
  (0 <= scaled r 10 <= 13107 # 2)%Q /\ (0 <= scaled r 100 <= 656 # 1)%Q.
Proof.
  unfold is_register. intros Hr. unfold scaled, Float.div.
  rewrite Rounding.fl_int
    by (assert (65535 < 2 ^ 53) by reflexivity; lia).
  assert (H10 : (0 <= inject_Z r / inject_Z 10 <= 13107 # 2)%Q).
  { unfold Qle, Qdiv, Qmult, Qinv, inject_Z. cbn [Qnum Qden]. lia. }
  assert (H100 : (0 <= inject_Z r / inject_Z 100 <= 656 # 1)%Q).
  { unfold Qle, Qdiv, Qmult, Qinv, inject_Z. cbn [Qnum Qden]. lia. }
  split; split.
  - apply FloatFacts.fl_nonneg, H10.
  - apply (Rounding.fl_le_dyadic _ 13107 1 2);
      [reflexivity | lia | lia | reflexivity | apply H10].
  - apply FloatFacts.fl_nonneg, H100.
  - apply (Rounding.fl_le_dyadic _ 656 0 1);
      [reflexivity | lia | lia | reflexivity | apply H100].
Qed.

(** X10.  No decoded field is negative: from unsigned 16-bit registers the
    identifier and the power are the registers themselves, voltage,
    temperature and state of charge lie in [0, 6553.5] and the current in
    [0, 656]. *)
Theorem decode_ranges (regs : list Z) (sample : Telemetry) :
  Forall is_register regs -> decode regs = Ok sample ->
  is_register (device_id sample) /\ is_register (power_w sample) /\
  (0 <= voltage_v sample <= 13107 # 2)%Q /\
  (0 <= current_a sample <= 656 # 1)%Q /\
  (0 <= temp_c sample <= 13107 # 2)%Q /\
  (0 <= soc_pct sample <= 13107 # 2)%Q.
Proof.
  intros H.
  do 7 (destruct regs as [| ? regs]; [discriminate |]).
  intros [= <-]. cbn [device_id power_w voltage_v current_a temp_c soc_pct].
  repeat match goal with
         | H : Forall _ (_ :: _) |- _ =>
             let E := fresh "R" in
             let T := fresh "T" in
             inversion H as [| ? ? E T]; subst; clear H
         end.
  repeat split; try (apply scaled_bounds; assumption);
    match goal with H : is_register ?z |- _ <= ?z => apply H
                  | H : is_register ?z |- ?z <= _ => apply H end.
Qed.

Lemma decode_ranges_witness :
  let regs := [1001; 1; 1200; 2300; 500; 550; 700; 1200; 0; 0] in
  Forall is_register regs /\
  (0 <= voltage_v (mkTelemetry 1001 1200 230 5 55 70) <= 13107 # 2)%Q.
Proof.
  intros regs.
  assert (H : Forall is_register regs)
    by (repeat constructor; unfold is_register; lia).
  split; [exact H |].
  exact (proj1 (proj2 (proj2
    (decode_ranges regs (mkTelemetry 1001 1200 230 5 55 70) H eq_refl)))).
Defined.

(** ** The debounce delay *)













End ClientMore.

(** * More on the simulator *)

Module SimMore.

Import Py Sim.

(** ** The register block *)

Lemma get_reg_getitem (addr : nat) (b : block) :
  get_reg addr b = (getitem b addr, b).
Proof.
  unfold get_reg, getValues, getitem. f_equal.
  rewrite <- (Nat.add_0_r addr) at 2. rewrite <- nth_error_skipn.
  now destruct (skipn addr b).
Qed.

Lemma setValues_length (b : block) (addr : nat) (v : Z) :
  (addr < length b)%nat -> length (setValues b addr [v]) = length b.
Proof.
  intros H. unfold setValues.
  rewrite !length_app, length_firstn, length_skipn. cbn [length]. lia.
Qed.

Lemma setValues_same (b : block) (addr : nat) (v : Z) :
  (addr < length b)%nat -> nth_error (setValues b addr [v]) addr = Some v.
Proof.
  intros H. unfold setValues.
  rewrite nth_error_app2 by (rewrite length_firstn; lia).
  rewrite length_firstn.
  replace (addr - Nat.min addr (length b))%nat with 0%nat by lia.
  reflexivity.
Qed.

Lemma setValues_other (b : block) (addr a : nat) (v : Z) :
  (addr < length b)%nat -> a <> addr ->
  nth_error (setValues b addr [v]) a = nth_error b a.
Proof.
  intros H Hne. unfold setValues.
  destruct (Nat.lt_ge_cases a addr) as [Hlt | Hge].
  - rewrite nth_error_app1 by (rewrite length_firstn; lia).
    rewrite nth_error_firstn.
    now rewrite (proj2 (Nat.ltb_lt a addr) Hlt).
  - rewrite nth_error_app2 by (rewrite length_firstn; lia).
    rewrite length_firstn.
    replace (a - Nat.min addr (length b))%nat with (S (a - addr - 1)) by lia.
    cbn [app nth_error length]. rewrite nth_error_skipn. f_equal. lia.
Qed.

(** X11.  Writing a register that is there and reading it back gives the
    value written; the write changes no other register and not the length
    of the block. *)
Theorem set_then_get (b : block) (addr : nat) (v : Z) :
  (addr < length b)%nat ->
  let b1 := snd (set_reg addr v b) in
  length b1 = length b /\
  fst (get_reg addr b1) = Ok v /\
  forall a, a <> addr -> fst (get_reg a b1) = fst (get_reg a b).
Proof.
  intros H b1. unfold b1, set_reg. cbn [snd].
  split; [apply setValues_length, H |]. split.
  - rewrite get_reg_getitem. cbn [fst]. unfold getitem.
    now rewrite setValues_same.
  - intros a Ha. rewrite !get_reg_getitem. cbn [fst]. unfold getitem.
    now rewrite setValues_other.
Qed.

Lemma set_then_get_witness :
  (7 < length initial)%nat /\
  fst (get_reg 7 (snd (set_reg 7 1400 initial))) = Ok 1400 /\
  fst (get_reg 2 (snd (set_reg 7 1400 initial))) = Ok 1200.
Proof.
  assert (H : (7 < length initial)%nat) by (cbn; lia).
  destruct (set_then_get initial 7 1400 H) as [_ [Hs Ho]].
  split; [exact H |]. split; [exact Hs |].
  rewrite (Ho 2%nat) by discriminate. reflexivity.
Defined.

(** X21.  A block read that lies inside the block returns exactly [count]
    registers, the same ones that single reads of its addresses return. *)
Theorem block_read (b : block) (addr count : nat) :
  (addr + count <= length b)%nat ->
  exists regs,
    get_regs addr count b = (Ok regs, b) /\
    length regs = count /\
    forall i, (i < count)%nat ->
      fst (get_reg (addr + i) b) = getitem regs i.
Proof.
  intros H. exists (getValues b addr count).
  split; [reflexivity |]. unfold getValues. split.
  - rewrite length_firstn, length_skipn. lia.
  - intros i Hi. rewrite get_reg_getitem. cbn [fst]. unfold getitem.
    rewrite nth_error_firstn, (proj2 (Nat.ltb_lt i count) Hi).
    now rewrite nth_error_skipn.
Qed.

Lemma block_read_witness :
  (0 + 10 <= length initial)%nat /\
  get_regs 0 10 initial
  = (Ok [1001; 1; 1200; 2300; 500; 550; 700; 1200; 0; 0], initial).
Proof.
  assert (H : (0 + 10 <= length initial)%nat) by (cbn; lia).
  split; [exact H |].
  destruct (block_read initial 0 10 H) as [regs [Hr _]].
  rewrite Hr. now injection Hr as <-.
Defined.

(** ** What the updater writes *)

Lemma updater_step_ok (d : Draws) (b : block) (t : Q) :
  length b = HR_LEN ->
  updater_step d (b, t) = (snd (tick d t b), Float.add t interval).
Proof.
  intros H. unfold updater_step. now rewrite (SimFacts.tick_block d t b H).
Qed.

(** An invariant of the block that one tick keeps holds after any run. *)
Lemma updater_invariant (P : block -> Prop) (ds : list Draws) :
  (forall d t (b : block),
     In d ds -> length b = HR_LEN -> P b -> P (snd (tick d t b))) ->
  forall (b : block) (t : Q),
    length b = HR_LEN -> P b -> P (fst (updater ds (b, t))).
Proof.
  induction ds as [| d rest IH]; intros Hstep b t Hlen Hb; cbn [updater].
  - exact Hb.
  - rewrite (updater_step_ok d b t Hlen).
    apply IH.
    + intros d0 t0 b0 Hin. apply Hstep. now right.
    + apply SimFacts.tick_length, Hlen.
    + apply Hstep; [now left | exact Hlen | exact Hb].
Qed.

(** X12.  On a block of [HR_LEN] registers the updater keeps the length and
    never writes the device identifier, the setpoint or the registers after
    it, whatever it draws; the status register reads 1 after every tick. *)
Theorem updater_frame (ds : list Draws) (b : block) (t : Q) :
  length b = HR_LEN ->
  let b1 := fst (updater ds (b, t)) in
  length b1 = HR_LEN /\ reg b1 0 = reg b 0 /\ skipn 7 b1 = skipn 7 b /\
  reg b1 1 = match ds with [] => reg b 1 | _ :: _ => 1 end.
Proof.
  intros Hlen b1. unfold b1. clear b1.
  revert b t Hlen. induction ds as [| d rest IH]; intros b t Hlen.
  - cbn. repeat split. exact Hlen.
  - cbn [updater]. rewrite (updater_step_ok d b t Hlen).
    pose proof (SimFacts.tick_length d t b Hlen) as Hlen1.
    assert (Ht : reg (snd (tick d t b)) 0 = reg b 0 /\
                 skipn 7 (snd (tick d t b)) = skipn 7 b /\
                 reg (snd (tick d t b)) 1 = 1).
    { rewrite (SimFacts.tick_block d t b Hlen). unfold reg.
      cbn [snd nth skipn]. repeat split. }
    destruct Ht as [T0 [T7 T1]].
    destruct (IH (snd (tick d t b)) (Float.add t interval) Hlen1)
      as [H1 [H2 [H3 H4]]].
    split; [exact H1 |]. split; [congruence |]. split; [congruence |].
    rewrite H4. now destruct rest.
Qed.

Lemma updater_frame_witness :
  let ds := [mkDraws 3 (-4) 0 0; mkDraws (-5) 15 (1 # 2) (-(1 # 5))] in
  length initial = HR_LEN /\
  reg (fst (updater ds (initial, 0%Q))) 0 = 1001 /\
  reg (fst (updater ds (initial, 0%Q))) 7 = 1200.
Proof.
  intros ds.
  destruct (updater_frame ds initial 0 eq_refl) as [_ [H0 [H7 _]]].
  split; [reflexivity |]. split; [exact H0 |].
  unfold reg. rewrite <- (Nat.add_0_r 7), <- nth_skipn, H7. reflexivity.
Defined.

Lemma add_interval (n : Z) :
  0 <= n -> n + 1 < 2 ^ 53 ->
  Float.add (inject_Z n) interval = inject_Z (n + 1).
Proof.
  intros H0 H1. unfold Float.add, interval.
  replace (inject_Z n + 1)%Q with (inject_Z (n + 1)).
  - apply Rounding.fl_int. lia.
  - unfold Qplus, inject_Z. cbn [Qnum Qden]. f_equal. lia.
Qed.

(** X13.  No iteration of the updater raises on a block of [HR_LEN]
    registers, so the tick time advances by one [interval] per iteration:
    it counts the iterations exactly, below [2 ^ 53] of them. *)
Theorem updater_clock (ds : list Draws) (b : block) (n : Z) :
  length b = HR_LEN -> 0 <= n -> n + Z.of_nat (length ds) < 2 ^ 53 ->
  snd (updater ds (b, inject_Z n)) = inject_Z (n + Z.of_nat (length ds)).
Proof.
  revert b n. induction ds as [| d rest IH]; intros b n Hlen H0 H1.
  - cbn. f_equal. lia.
  - cbn [updater]. rewrite (updater_step_ok d b _ Hlen).
    cbn [length] in H1.
    rewrite add_interval by lia.
    rewrite IH; [f_equal; cbn [length]; lia | | lia | lia].
    apply SimFacts.tick_length, Hlen.
Qed.

Lemma updater_clock_witness :
  let ds := [mkDraws 3 (-4) 0 0; mkDraws (-5) 15 (1 # 2) (-(1 # 5))] in
  length initial = HR_LEN /\ snd (updater ds (initial, 0%Q)) = 2%Q.
Proof.
  intros ds. split; [reflexivity |].
  assert (H : 0 + Z.of_nat (length ds) < 2 ^ 53) by reflexivity.
  exact (updater_clock ds initial 0 eq_refl (Z.le_refl 0) H).
Defined.

(** ** The temperature duty cycle *)

Lemma cycle_value (n : Z) :
  0 <= n < 2 ^ 53 ->
  Float.to_int (Float.mod2 (Float.floordiv (inject_Z n) 10)) = (n / 10) mod 2.
Proof.
  intros H. unfold Float.floordiv.
  assert (Hf : Qfloor (inject_Z n / 10) = n / 10).
  { unfold Qfloor, Qdiv, Qmult, Qinv, inject_Z. cbn [Qnum Qden].
    now rewrite Z.mul_1_r. }
  rewrite Hf.
  assert (Hq : 0 <= n / 10 <= n).
  { split; [apply Z.div_pos; lia |].
    apply Z.div_le_upper_bound; lia. }
  change (Float.fl (inject_Z (n / 10))) with (Float.of_int (n / 10)).
  rewrite Rounding.fl_int by lia.
  unfold Float.mod2. rewrite Qfloor_Z. apply Rounding.to_int_inject.
Qed.

(** X14.  The temperature target follows a duty cycle of 20 ticks: at tick
    time [n] the register is smoothed toward the target 65 plus jitter
    during the first ten ticks of each period and toward 40 plus jitter
    during the last ten, by [temp * 0.8 + target * 0.2]. *)
Theorem duty_cycle (n r : Z) (jitter : Q) :
  0 <= n < 2 ^ 53 ->
  temp_step (inject_Z n) r jitter
  = let temp_target :=
      Float.add (if n mod 20 <? 10 then 65%Q else 40%Q) jitter in
    let temp := Float.div (Float.of_int r) 10 in
    Float.to_int
      (Float.mul
         (Float.add (Float.mul temp (Float.fl (8 # 10)))
                    (Float.mul temp_target (Float.fl (2 # 10))))
         10).
Proof.
  intros H. unfold temp_step. cbv zeta.
  rewrite (cycle_value n H).
  replace ((n / 10) mod 2 =? 0) with (n mod 20 <? 10).
  - now destruct (n mod 20 <? 10).
  - destruct H as [H0 _].
    destruct (Z.ltb_spec (n mod 20) 10) as [Hph | Hph]; symmetry.
    + apply Z.eqb_eq. clear - H0 Hph.
      Z.to_euclidean_division_equations. lia.
    + apply Z.eqb_neq. clear - H0 Hph.
      Z.to_euclidean_division_equations. lia.
Qed.

Lemma duty_cycle_witness :
  0 <= 37 < 2 ^ 53 /\
  temp_step (inject_Z 3) 550 0 = 570 /\
  temp_step (inject_Z 37) 550 0 = 520.
Proof.
  assert (H : 0 <= 37 < 2 ^ 53) by (split; [lia | reflexivity]).
  split; [exact H |]. split; [vm_compute; reflexivity |].
  rewrite (duty_cycle 37 550 0 H). vm_compute. reflexivity.
Defined.

(** ** Ranges of the simulated quantities *)

Lemma min_upper (a b : Q) : (Float.min a b <= a)%Q.
Proof.
  unfold Float.min. destruct (Float.ltb b a) eqn:E.
  - apply Qlt_le_weak, FloatFacts.ltb_true_lt, E.
  - apply Qle_refl.
Qed.

Lemma current_step_bounds (pw v : Z) : 0 <= current_step pw v <= 2000.
Proof.
  unfold current_step. apply FloatFacts.to_int_bounds.
  - apply FloatFacts.max_lower.
  - apply ClientMore.max0_bounds; [lia | apply min_upper].
Qed.

(** X15.  With draws in their ranges the voltage register stays within 15
    of 2300 (230 V give or take 1.5 V) and the current register within
    [0, 2000] (at most 20 A), after any number of ticks. *)
Theorem electrical_bounds (ds : list Draws) :
  Forall in_range ds ->
  let b := fst (updater ds (initial, 0%Q)) in
  2285 <= reg b 3 <= 2315 /\ 0 <= reg b 4 <= 2000.
Proof.
  intros H.
  apply (updater_invariant
           (fun b => 2285 <= reg b 3 <= 2315 /\ 0 <= reg b 4 <= 2000)).
  - intros d t b Hin Hlen _.
    rewrite Forall_forall in H. destruct (H d Hin) as [_ [Hv _]].
    rewrite (SimFacts.tick_block d t b Hlen). unfold reg. cbn [snd nth].
    split; [lia | apply current_step_bounds].
  - reflexivity.
  - unfold reg. cbn. lia.
Qed.

Lemma electrical_bounds_witness :
  let ds := [mkDraws 3 (-4) 0 0; mkDraws (-5) 15 (1 # 2) (-(1 # 5))] in
  Forall in_range ds /\ reg (fst (updater ds (initial, 0%Q))) 3 <= 2315.
Proof.
  intros ds.
  assert (H : Forall in_range ds).
  { repeat constructor; cbn; try lia; discriminate. }
  split; [exact H |].
  exact (proj2 (proj1 (electrical_bounds ds H))).
Defined.

(** ** The power follows the setpoint *)

Lemma power_step_gap (sp pw jitter : Z) :
  0 <= sp <= 5000 -> 0 <= pw <= 5000 -> -5 <= jitter <= 5 ->
  0 <= power_step sp pw jitter <= 5000 /\
  Z.abs (sp - power_step sp pw jitter) <= Z.max 15 (Z.abs (sp - pw) - 3).
Proof.
  intros Hsp Hpw Hj. split; [apply SimFacts.power_step_bounds |].
  rewrite SimFacts.power_step_value. cbv zeta.
  destruct (Z.ltb_spec 10 (Z.abs (Z.max (-50) (Z.min 50 (sp - pw)))));
    Z.to_euclidean_division_equations; lia.
Qed.

(** X16.  With setpoint and power in [0, 5000] and jitter in its range, the
    power closes in on the setpoint by at least 3 W per tick until it is
    within 15 W of it, never overshoots past that, and then stays within
    15 W for as long as the setpoint is left alone. *)
Theorem power_tracks (ds : list Draws) (b : block) (t : Q) :
  length b = HR_LEN -> Forall in_range ds ->
  0 <= reg b 7 <= 5000 -> 0 <= reg b 2 <= 5000 ->
  gap (fst (updater ds (b, t)))
  <= Z.max 15 (gap b - 3 * Z.of_nat (length ds)).
Proof.
  intros Hlen H. revert b t Hlen.
  induction H as [| d rest Hd _ IH]; intros b t Hlen Hsp Hpw.
  - cbn. lia.
  - cbn [updater]. rewrite (updater_step_ok d b t Hlen).
    pose proof (SimFacts.tick_length d t b Hlen) as Hlen1.
    destruct Hd as [Hj _].
    destruct (power_step_gap (reg b 7) (reg b 2) (jitter_pw d) Hsp Hpw Hj)
      as [Hb Hg].
    assert (Ht : reg (snd (tick d t b)) 7 = reg b 7 /\
                 reg (snd (tick d t b)) 2
                 = power_step (reg b 7) (reg b 2) (jitter_pw d)).
    { rewrite (SimFacts.tick_block d t b Hlen). unfold reg.
      do 16 (destruct b as [| ? b]; [discriminate Hlen |]).
      cbn [snd nth skipn]. split; reflexivity. }
    destruct Ht as [T7 T2].
    specialize (IH (snd (tick d t b)) (Float.add t interval) Hlen1).
    rewrite T7, T2 in IH. specialize (IH Hsp Hb).
    unfold gap in *. rewrite T7, T2 in IH.
    cbn [length]. lia.
Qed.

Lemma power_tracks_witness :
  let b := snd (set_reg 7 1400 initial) in
  let ds := repeat (mkDraws 5 0 0 0) 70 in
  gap b = 200 /\ gap (fst (updater ds (b, 0%Q))) <= 15.
Proof.
  intros b ds. split; [reflexivity |].
  assert (H : Forall in_range ds).
  { apply Forall_forall. intros d Hd. apply repeat_spec in Hd. subst d.
    repeat split; cbn; try lia; discriminate. }
  assert (Hsp : 0 <= reg b 7 <= 5000) by (cbn; lia).
  assert (Hpw : 0 <= reg b 2 <= 5000) by (cbn; lia).
  exact (power_tracks ds b 0 eq_refl H Hsp Hpw).
Defined.

(** ** The temperature stays in range *)

Ltac by_computation := vm_compute; discriminate.

Lemma target_bounds (base : Z) (jitter : Q) :
  40 <= base <= 65 -> (- (1 # 2) <= jitter <= 1 # 2)%Q ->
  (79 # 2 <= Float.add (inject_Z base) jitter <= 131 # 2)%Q.
Proof.
  intros Hb [Hl Hu].
  apply (Rounding.fl_between _ 79 131 1 2);
    [reflexivity | lia | lia | reflexivity |].
  destruct jitter as [p q].
  unfold Qle, Qplus, Qopp, inject_Z in *. cbn [Qnum Qden] in *.
  split; nia.
Qed.

Lemma temp_step_bounds (t : Q) (r : Z) (jitter : Q) :
  390 <= r <= 660 -> (- (1 # 2) <= jitter <= 1 # 2)%Q ->
  390 <= temp_step t r jitter <= 660.
Proof.
  intros Hr Hj. unfold temp_step. cbv zeta.
  set (cycle := Float.to_int (Float.mod2 _)).
  set (target := if cycle =? 0 then Float.add 65 jitter
                 else Float.add 40 jitter).
  assert (Htarget : (79 # 2 <= target <= 131 # 2)%Q).
  { unfold target. destruct (cycle =? 0).
    - apply (target_bounds 65 jitter); [lia | exact Hj].
    - apply (target_bounds 40 jitter); [lia | exact Hj]. }
  clearbody target. clear cycle.
  rewrite Rounding.fl_int
    by (assert (660 < 2 ^ 53) by reflexivity; lia).
  (* temp = reg / 10.0 *)
  assert (H1 : (39 # 1 <= Float.div (inject_Z r) 10 <= 66 # 1)%Q).
  { apply (Rounding.fl_between _ 39 66 0 1);
      [reflexivity | lia | lia | reflexivity |].
    unfold Qle, Qdiv, Qmult, Qinv, inject_Z. cbn [Qnum Qden]. lia. }
  set (temp := Float.div (inject_Z r) 10) in *. clearbody temp.
  (* temp * 0.8 and temp_target * 0.2 *)
  assert (C8 : (819 # 1024 <= Float.fl (8 # 10) <= 820 # 1024)%Q)
    by (split; by_computation).
  assert (C2 : (204 # 1024 <= Float.fl (2 # 10) <= 205 # 1024)%Q)
    by (split; by_computation).
  assert (P1 : (31941 # 1024 <= Float.mul temp (Float.fl (8 # 10))
                <= 54120 # 1024)%Q).
  { apply (Rounding.fl_between _ 31941 54120 10 1024);
      [reflexivity | lia | lia | reflexivity |]. split.
    - apply (Qmult_le_compat_nonneg (39 # 1) temp (819 # 1024));
        (split; [by_computation | tauto]).
    - assert (T0 : (0 <= temp)%Q)
        by (apply Qle_trans with (39 # 1)%Q; [by_computation | tauto]).
      assert (T1 : (0 <= Float.fl (8 # 10))%Q) by by_computation.
      apply (Qmult_le_compat_nonneg temp (66 # 1) _ (820 # 1024));
        split; tauto. }
  assert (P2 : (16116 # 2048 <= Float.mul target (Float.fl (2 # 10))
                <= 26855 # 2048)%Q).
  { apply (Rounding.fl_between _ 16116 26855 11 2048);
      [reflexivity | lia | lia | reflexivity |]. split.
    - apply (Qmult_le_compat_nonneg (79 # 2) target (204 # 1024));
        (split; [by_computation | tauto]).
    - assert (T0 : (0 <= target)%Q)
        by (apply Qle_trans with (79 # 2)%Q; [by_computation | tauto]).
      assert (T1 : (0 <= Float.fl (2 # 10))%Q) by by_computation.
      apply (Qmult_le_compat_nonneg target (131 # 2) _ (205 # 1024));
        split; tauto. }
  set (p1 := Float.mul temp _) in *. clearbody p1.
  set (p2 := Float.mul target _) in *. clearbody p2.
  (* the sum, then temp * 10 *)
  assert (S : (79998 # 2048 <= Float.add p1 p2 <= 135095 # 2048)%Q).
  { apply (Rounding.fl_between _ 79998 135095 11 2048);
      [reflexivity | lia | lia | reflexivity |]. split.
    - apply Qle_trans with ((31941 # 1024) + (16116 # 2048))%Q;
        [by_computation | apply Qplus_le_compat; tauto].
    - apply Qle_trans with ((54120 # 1024) + (26855 # 2048))%Q;
        [apply Qplus_le_compat; tauto | by_computation]. }
  set (smoothed := Float.add p1 p2) in *. clearbody smoothed.
  assert (M : (799980 # 2048 <= Float.mul smoothed 10
               <= 1350950 # 2048)%Q).
  { apply (Rounding.fl_between _ 799980 1350950 11 2048);
      [reflexivity | lia | lia | reflexivity |]. split.
    - assert (T0 : (0 <= 79998 # 2048)%Q) by by_computation.
      assert (T1 : (0 <= 10 <= 10)%Q) by (split; by_computation).
      apply (Qmult_le_compat_nonneg (79998 # 2048) smoothed 10 10);
        [split |]; tauto.
    - assert (T0 : (0 <= smoothed)%Q)
        by (apply Qle_trans with (79998 # 2048)%Q; [by_computation | tauto]).
      assert (T1 : (0 <= 10 <= 10)%Q) by (split; by_computation).
      apply (Qmult_le_compat_nonneg smoothed (135095 # 2048) 10 10);
        [split |]; tauto. }
  split.
  - apply Rounding.to_int_ge; [lia |].
    apply Qle_trans with (799980 # 2048)%Q; [by_computation | tauto].
  - apply FloatFacts.to_int_bounds.
    + apply Qle_trans with (799980 # 2048)%Q; [by_computation | tauto].
    + apply Qle_trans with (1350950 # 2048)%Q; [tauto | by_computation].
Qed.

(** X17.  With draws in their ranges the temperature register never leaves
    [390, 660], that is 39.0 to 66.0 degrees, at any tick time, whatever
    the rounding of the smoothing does. *)
Theorem temperature_bounds (ds : list Draws) :
  Forall in_range ds ->
  390 <= reg (fst (updater ds (initial, 0%Q))) 5 <= 660.
Proof.
  intros H.
  apply (updater_invariant (fun b => 390 <= reg b 5 <= 660)).
  - intros d t b Hin Hlen Hb.
    rewrite Forall_forall in H. destruct (H d Hin) as [_ [_ [Hj _]]].
    rewrite (SimFacts.tick_block d t b Hlen). unfold reg at 1 3.
    cbn [snd nth]. apply temp_step_bounds; assumption.
  - reflexivity.
  - unfold reg. cbn. lia.
Qed.

Lemma temperature_bounds_witness :
  let ds := [mkDraws 3 (-4) 0 0; mkDraws (-5) 15 (1 # 2) (-(1 # 5))] in
  Forall in_range ds /\
  390 <= reg (fst (updater ds (initial, 0%Q))) 5 <= 660.
Proof.
  intros ds.
  assert (H : Forall in_range ds).
  { repeat constructor; cbn; try lia; discriminate. }
  split; [exact H |]. exact (temperature_bounds ds H).
Defined.

End SimMore.

(** * The client polling the simulator *)

Module Plant.

Import Py Sim.

Lemma updater_length (ds : list Draws) (b : block) (t : Q) :
  length b = HR_LEN -> length (fst (updater ds (b, t))) = HR_LEN.
Proof.
  intros H.
  apply (SimMore.updater_invariant (fun b => length b = HR_LEN));
    [| exact H | exact H].
  intros d t0 b0 _ Hlen _. apply SimFacts.tick_length, Hlen.
Qed.

Lemma updater_in_ranges (ds : list Draws) :
  Forall in_range ds -> in_ranges (fst (updater ds (initial, 0%Q))).
Proof.
  intros H. apply (SimMore.updater_invariant in_ranges).
  - intros d t b Hin Hlen [H0 [_ [_ [_ [H5 _]]]]].
    rewrite Forall_forall in H. destruct (H d Hin) as [_ [Hv [Hj _]]].
    rewrite (SimFacts.tick_block d t b Hlen). unfold in_ranges, reg in *.
    cbn [snd nth]. repeat split; try lia; try assumption;
      try apply SimFacts.power_step_bounds;
      try apply SimMore.current_step_bounds;
      try apply SimFacts.soc_step_bounds;
      apply SimMore.temp_step_bounds; assumption.
  - reflexivity.
  - unfold in_ranges, reg. cbn. lia.
Qed.

Lemma scaled_between (r lo hi : Z) (j : Z) (d : positive) (scale : positive) :
  Zpos d = 2 ^ j -> 0 <= j -> 0 < lo -> Z.log2 hi < 52 ->
  Z.abs r < 2 ^ 53 ->
  lo * Zpos scale <= r * Zpos d -> r * Zpos d <= hi * Zpos scale ->
  (lo # d <= Client.scaled r (Zpos scale) <= hi # d)%Q.
Proof.
  intros Hd Hj Hlo Hbits Hr H1 H2. unfold Client.scaled, Float.div.
  rewrite Rounding.fl_int by exact Hr.
  apply (Rounding.fl_between _ lo hi j d); try assumption.
  unfold Qle, Qdiv, Qmult, Qinv, inject_Z. cbn [Qnum Qden]. lia.
Qed.

(** X18.  Whenever the client reads the ten registers of the simulator,
    after any number of ticks with draws in their ranges, the cycle succeeds:
    it resets the backoff and decodes a sample of device 1001 with the power
    in [0, 5000] W, the voltage in [228.5, 231.5] V, the current in
    [0, 20] A, the temperature in [39, 66] degrees and the state of charge in
    [0, 100] percent. *)
Theorem poll_of_simulator
  (ds : list Draws) (now : Q) (st : Client.PollState) :
  Forall in_range ds ->
  let r := served (fst (updater ds (initial, 0%Q))) in
  Client.backoff (snd (Client.poll_cycle r now st)) = 0%Q /\
  exists sample,
    Client.acquire r = Ok sample /\
    Client.device_id sample = 1001 /\
    0 <= Client.power_w sample <= 5000 /\
    (457 # 2 <= Client.voltage_v sample <= 463 # 2)%Q /\
    (0 <= Client.current_a sample <= 20)%Q /\
    (39 <= Client.temp_c sample <= 66)%Q /\
    (0 <= Client.soc_pct sample <= 100)%Q.
Proof.
  intros H r.
  pose proof (updater_in_ranges ds H) as Hin.
  pose proof (updater_length ds initial 0 eq_refl) as Hlen.
  unfold r. clear r.
  set (b := fst (updater ds (initial, 0%Q))) in *. clearbody b.
  do 16 (destruct b as [| ? b]; [discriminate Hlen |]).
  destruct Hin as [H0 [H2 [H3 [H4 [H5 H6]]]]]. unfold reg in *.
  cbn [nth] in *.
  assert (Ha : Client.acquire
                 (served (z :: z0 :: z1 :: z2 :: z3 :: z4 :: z5 :: z6 :: z7
                            :: z8 :: z9 :: z10 :: z11 :: z12 :: z13 :: z14
                            :: b))
               = Ok {| Client.device_id := z;
                       Client.power_w := z1;
                       Client.voltage_v := Client.scaled z2 10;
                       Client.current_a := Client.scaled z3 100;
                       Client.temp_c := Client.scaled z4 10;
                       Client.soc_pct := Client.scaled z5 10 |})
    by reflexivity.
  assert (B53 : 5000 < 2 ^ 53) by reflexivity.
  split.
  - rewrite ClientFacts.poll_cycle_backoff, Ha. reflexivity.
  - eexists. split; [exact Ha |].
    cbn [Client.device_id Client.power_w Client.voltage_v Client.current_a
         Client.temp_c Client.soc_pct].
    split; [exact H0 |]. split; [exact H2 |]. split; [| split; [| split]].
    + apply (scaled_between z2 457 463 1 2 10);
        try reflexivity; lia.
    + split.
      * apply FloatFacts.fl_nonneg. rewrite Rounding.fl_int by lia.
        unfold Qle, Qdiv, Qmult, Qinv, inject_Z. cbn [Qnum Qden]. lia.
      * apply FloatFacts.fl_le_int; [lia | reflexivity |].
        rewrite Rounding.fl_int by lia.
        unfold Qle, Qdiv, Qmult, Qinv, inject_Z. cbn [Qnum Qden]. lia.
    + apply (scaled_between z4 39 66 0 1 10);
        try reflexivity; lia.
    + split.
      * apply FloatFacts.fl_nonneg. rewrite Rounding.fl_int by lia.
        unfold Qle, Qdiv, Qmult, Qinv, inject_Z. cbn [Qnum Qden]. lia.
      * apply FloatFacts.fl_le_int; [lia | reflexivity |].
        rewrite Rounding.fl_int by lia.
        unfold Qle, Qdiv, Qmult, Qinv, inject_Z. cbn [Qnum Qden]. lia.
Qed.

Lemma poll_of_simulator_witness :
  let ds := [mkDraws 3 (-4) 0 0; mkDraws (-5) 15 (1 # 2) (-(1 # 5))] in
  Forall in_range ds /\
  Client.backoff
    (snd (Client.poll_cycle (served (fst (updater ds (initial, 0%Q)))) 2
            {| Client.alarm := Client.default_alarm; Client.backoff := 16 |}))
  = 0%Q.
Proof.
  intros ds.
  assert (H : Forall in_range ds).
  { repeat constructor; cbn; try lia; discriminate. }
  split; [exact H |].
  exact (proj1 (poll_of_simulator ds 2 _ H)).
Defined.

End Plant.
